(** * easytcp: the connection session and the request router

    A shallow embedding of [session.go] and of the router that is shipped
    with it.  Go channels, [sync.Once], [recover] and the goroutines that
    talk to a session are made explicit:

    - a channel is a record with its buffer, its capacity, the values of
      the senders parked on it, the number of receivers parked on it and
      its closed flag; an operation returns an [outcome]: it is done, it
      panics, or it would block;
    - the loops run against a script that fixes what the connection
      returns and what the other goroutines do at every iteration;
    - handlers and middlewares are state transformers over a user world. *)

From Stdlib Require Import ZArith String List Lia Bool.
From stdpp Require Import base option countable gmap functions.
Import ListNotations.
Local Open Scope string_scope.
Local Open Scope Z_scope.
Local Open Scope list_scope.

(** ** Outcomes of a Go statement *)

Inductive outcome (A : Type) : Type :=
| Done (a : A)
| Panic (msg : string)
| Blocked.
Arguments Done {A} a.
Arguments Panic {A} msg.
Arguments Blocked {A}.

Definition obind {A B} (m : outcome A) (k : A -> outcome B) : outcome B :=
  match m with
  | Done a => k a
  | Panic msg => Panic msg
  | Blocked => Blocked
  end.

Notation "'do' x <- m ; k" := (obind m (fun x => k))
  (at level 10, x name, m at level 100, k at level 200, only parsing).

(** ** Channels *)

Module Chan.

Record chan (A : Type) : Type := mk {
  buf : list A;        (* queued values, oldest first *)
  cap : nat;           (* capacity given to make *)
  sendq : list A;      (* values of the senders parked on the channel *)
  recvq : nat;         (* receivers parked on the channel *)
  is_closed : bool
}.
Arguments mk {A}.
Arguments buf {A}.
Arguments cap {A}.
Arguments sendq {A}.
Arguments recvq {A}.
Arguments is_closed {A}.

(** [make(chan T, size)]: a negative size is a run-time panic. *)
Definition make {A} (size : Z) : outcome (chan A) :=
  if size <? 0 then Panic "makechan: size out of range"
  else Done (mk [] (Z.to_nat size) [] 0%nat false).

(** [c <- v] by the goroutine under study. *)
Definition send {A} (v : A) (c : chan A) : outcome (chan A) :=
  if is_closed c then Panic "send on closed channel"
  else if (0 <? recvq c)%nat then
    Done (mk (buf c) (cap c) (sendq c) (pred (recvq c)) false)
  else if (length (buf c) <? cap c)%nat then
    Done (mk (buf c ++ [v]) (cap c) (sendq c) (recvq c) false)
  else Blocked.

(** [v, ok := <-c] by the goroutine under study; [None] is [ok = false]. *)
Definition recv {A} (c : chan A) : outcome (option A * chan A) :=
  match buf c, sendq c with
  | v :: b, [] => Done (Some v, mk b (cap c) [] (recvq c) (is_closed c))
  | v :: b, w :: q => Done (Some v, mk (b ++ [w]) (cap c) q (recvq c) (is_closed c))
  | [], w :: q => Done (Some w, mk [] (cap c) q (recvq c) (is_closed c))
  | [], [] => if is_closed c then Done (None, c) else Blocked
  end.

(** [close(c)]: parked receivers are released, parked senders panic. *)
Definition close {A} (c : chan A) : outcome (chan A) :=
  if is_closed c then Panic "close of closed channel"
  else Done (mk (buf c) (cap c) [] 0%nat true).

(** A sender of another goroutine that finds no room parks its value. *)
Definition park_send {A} (v : A) (c : chan A) : chan A :=
  mk (buf c) (cap c) (sendq c ++ [v]) (recvq c) (is_closed c).

(** A receiver of another goroutine that finds nothing parks itself. *)
Definition park_recv {A} (c : chan A) : chan A :=
  mk (buf c) (cap c) (sendq c) (S (recvq c)) (is_closed c).

End Chan.

Abbreviation chan := Chan.chan.

(** ** Message entries *)

(** Modelled from the spec: the message entry, declared in a package that is
    not part of the sources at hand, is an envelope of a routing key and of
    the raw payload bytes; the key is comparable, an integer or a string. *)
Inductive MsgID : Type :=
| IntID (n : Z)
| StrID (s : string).

#[global] Instance MsgID_eq_dec : EqDecision MsgID.
Proof. solve_decision. Defined.

#[global] Instance MsgID_countable : Countable MsgID.
Proof.
  refine (inj_countable'
    (fun i => match i with IntID n => inl n | StrID s => inr s end)
    (fun x => match x with inl n => IntID n | inr s => StrID s end) _).
  intros []; reflexivity.
Defined.

Record Entry : Type := mkEntry {
  ID : MsgID;
  Data : list Z
}.

(** A [*message.Entry]: [None] is the nil pointer. *)
Definition EntryPtr : Type := option Entry.

(** ** Session *)

Record Session : Type := mkSession {
  id : string;
  closeOnce : bool;            (* sync.Once: has the function run *)
  closed : chan unit;
  reqQueue : chan EntryPtr;
  respQueue : chan EntryPtr
}.

Record SessionOption : Type := mkSessionOption {
  ReadBufferSize : Z;
  WriteBufferSize : Z
}.

(** [NewSession]; [uuid] is the string [uuid.NewString()] returned. *)
Definition NewSession (uuid : string) (opt : SessionOption) : outcome Session :=
  do c <- Chan.make 0;
  do rq <- Chan.make (ReadBufferSize opt);
  do wq <- Chan.make (WriteBufferSize opt);
  Done (mkSession uuid false c rq wq).

Definition set_respQueue (s : Session) (q : chan EntryPtr) : Session :=
  mkSession (id s) (closeOnce s) (closed s) (reqQueue s) q.

Definition set_reqQueue (s : Session) (q : chan EntryPtr) : Session :=
  mkSession (id s) (closeOnce s) (closed s) q (respQueue s).

(** [safelyPushRespQueue]: the deferred [recover] turns the panic of the
    send into [ok = false]. *)
Definition safelyPushRespQueue (s : Session) (respMsg : EntryPtr)
  : outcome (bool * Session) :=
  match Chan.send respMsg (respQueue s) with
  | Done q => Done (true, set_respQueue s q)
  | Panic _ => Done (false, s)
  | Blocked => Blocked
  end.

Definition safelyPushReqQueue (s : Session) (reqMsg : EntryPtr)
  : outcome (bool * Session) :=
  match Chan.send reqMsg (reqQueue s) with
  | Done q => Done (true, set_reqQueue s q)
  | Panic _ => Done (false, s)
  | Blocked => Blocked
  end.

(** [SendResp]: [Some msg] is the error returned, [None] is nil. *)
Definition SendResp (s : Session) (respMsg : EntryPtr)
  : outcome (option string * Session) :=
  do r <- safelyPushRespQueue s respMsg;
  if negb (fst r) then Done (Some "session's closed", snd r)
  else Done (None, snd r).

(** The channel operations a call performs, in order. *)
Inductive qname : Type := QClosed | QReq | QResp.
Inductive effect : Type := CloseChan (q : qname).

(** The function handed to [closeOnce.Do]. *)
Definition Close_func (s : Session) : outcome (Session * list effect) :=
  do c <- Chan.close (closed s);
  do rq <- Chan.close (reqQueue s);
  do wq <- Chan.close (respQueue s);
  Done (mkSession (id s) (closeOnce s) c rq wq,
        [CloseChan QClosed; CloseChan QReq; CloseChan QResp]).

(** [sync.Once.Do]: the function runs when the flag is unset, and the flag
    is set when it has returned. *)
Definition Close (s : Session) : outcome (Session * list effect) :=
  if closeOnce s then Done (s, [])
  else
    do r <- Close_func s;
    Done (mkSession (id (fst r)) true (closed (fst r)) (reqQueue (fst r))
            (respQueue (fst r)), snd r).

(** [WaitUntilClosed]: [<-s.closed]. *)
Definition WaitUntilClosed (s : Session) : outcome unit :=
  do _ <- Chan.recv (closed s);
  Done tt.

(** [n] calls of [Close] one after the other ([sync.Once] serialises the
    callers), with the effects of all of them. *)
Fixpoint Close_times (n : nat) (s : Session) : outcome (Session * list effect) :=
  match n with
  | O => Done (s, [])
  | S n' =>
      do r <- Close s;
      do r' <- Close_times n' (fst r);
      Done (fst r', snd r ++ snd r')
  end.

(** The invariant of a session: the three channels are closed exactly
    when the once has fired, and nothing is ever sent on [closed]. *)
Definition session_ok (s : Session) : Prop :=
  Chan.is_closed (closed s) = closeOnce s /\
  Chan.is_closed (reqQueue s) = closeOnce s /\
  Chan.is_closed (respQueue s) = closeOnce s /\
  Chan.buf (closed s) = [] /\ Chan.sendq (closed s) = [].

Definition is_closed_session (s : Session) : Prop :=
  closeOnce s = true /\
  Chan.is_closed (closed s) = true /\
  Chan.is_closed (reqQueue s) = true /\
  Chan.is_closed (respQueue s) = true.

(** ** Slices *)

(** A Go slice is a window of [len] elements on a backing array, whose
    length is the capacity.  [append] writes into the spare capacity of the
    array when the new elements fit, and moves to a fresh array of capacity
    [newcap] padded with [zero] otherwise.  The router below keeps the
    lists seen through its slices; the lemmas on [Slice.view] justify it
    for calls that run one after the other. *)
Module Slice.

Record slice (A : Type) : Type := mk {
  arr : list A;
  len : nat
}.
Arguments mk {A}.
Arguments arr {A}.
Arguments len {A}.

Definition view {A} (s : slice A) : list A := firstn (len s) (arr s).

Definition append {A} (zero : A) (newcap : nat) (s : slice A) (vs : list A)
  : slice A :=
  if (len s + length vs <=? length (arr s))%nat then
    mk (firstn (len s) (arr s) ++ vs ++ skipn (len s + length vs) (arr s))
       (len s + length vs)
  else
    mk (firstn (len s) (arr s) ++ vs ++ repeat zero (newcap - (len s + length vs)))
       (len s + length vs).

End Slice.

(** ** Router *)

(** What a handler returns: the response entry and the error
    ([None] is nil for both). *)
Definition Resp : Type := (EntryPtr * option string)%type.

(** Modelled from the spec: the request context, whose declaration is not
    part of the sources at hand.  It holds a reference to the session that
    produced the request (an address in the store of sessions) and the
    request message, which may be nil. *)
Record Context : Type := mkContext {
  session : nat;
  reqMsg : EntryPtr
}.

(** Handlers are user code with effects of their own: they transform a
    user world [W]. *)
Definition HandlerFunc (W : Type) : Type := Context -> W -> Resp * W.
Definition MiddlewareFunc (W : Type) : Type := HandlerFunc W -> HandlerFunc W.

Record Router (W : Type) : Type := mkRouter {
  handlerMapper : gmap MsgID (HandlerFunc W);
  middlewaresMapper : gmap MsgID (list (MiddlewareFunc W));
  globalMiddlewares : list (MiddlewareFunc W);
  notFoundHandler : option (HandlerFunc W);
  reqCtxQueue : chan Context;
  stopped : chan unit
}.
Arguments mkRouter {W}.
Arguments handlerMapper {W}.
Arguments middlewaresMapper {W}.
Arguments globalMiddlewares {W}.
Arguments notFoundHandler {W}.
Arguments reqCtxQueue {W}.
Arguments stopped {W}.

Definition newRouter {W} (queueSize : list Z) : outcome (Router W) :=
  let size :=
    match queueSize with
    | [] => 0
    | qs :: _ => if 0 <? qs then qs else 0
    end in
  do q <- Chan.make size;
  do st <- Chan.make 0;
  Done (mkRouter ∅ ∅ [] None q st).

Definition nilHandler {W} : HandlerFunc W :=
  fun _ w => ((None, None), w).

Definition stop {W} (r : Router W) : outcome (Router W) :=
  do st <- Chan.close (stopped r);
  Done (mkRouter (handlerMapper r) (middlewaresMapper r) (globalMiddlewares r)
          (notFoundHandler r) (reqCtxQueue r) st).

(** The loop of [wrapHandlers]: [n] is [i + 1], so it runs from
    [i = len(middles) - 1] down to [i = 0]. *)
Fixpoint wrap_loop {W} (middles : list (MiddlewareFunc W)) (n : nat)
  (wrapped : HandlerFunc W) : HandlerFunc W :=
  match n with
  | O => wrapped
  | S i =>
      match nth_error middles i with
      | Some m => wrap_loop middles i (m wrapped)
      | None => wrapped
      end
  end.

(** The handler [wrapHandlers] starts from: the one given, else the
    not-found handler, else [nilHandler]. *)
Definition resolve_handler {W} (r : Router W) (handler : option (HandlerFunc W))
  : HandlerFunc W :=
  let handler := match handler with Some h => Some h | None => notFoundHandler r end in
  match handler with Some h => h | None => nilHandler end.

Definition wrapHandlers {W} (r : Router W) (handler : option (HandlerFunc W))
  (middles : list (MiddlewareFunc W)) : HandlerFunc W :=
  wrap_loop middles (length middles) (resolve_handler r handler).

(** The middleware list [handleRequest] builds for a message id:
    [append(mws, v...)] on the global ones, read before any other append on
    them. *)
Definition middlewares_for {W} (r : Router W) (i : MsgID) : list (MiddlewareFunc W) :=
  match middlewaresMapper r !! i with
  | Some v => globalMiddlewares r ++ v
  | None => globalMiddlewares r
  end.

(** [handleRequest]: reading [ctx.reqMsg.ID] through a nil [reqMsg] is a
    nil pointer dereference. *)
Definition handleRequest {W} (r : Router W) (ctx : Context) (w : W)
  : outcome (Resp * W) :=
  match reqMsg ctx with
  | None => Panic "invalid memory address or nil pointer dereference"
  | Some e =>
      let handler := handlerMapper r !! ID e in
      let mws := middlewares_for r (ID e) in
      let wrapped := wrapHandlers r handler mws in
      Done (wrapped ctx w)
  end.

(** The filtering loop shared by [register] and [registerMiddleware]:
    every non-nil element is appended. *)
Definition append_non_nil {A} (acc : list A) (m : list (option A)) : list A :=
  fold_left (fun ms mm => match mm with Some f => ms ++ [f] | None => ms end) m acc.

Definition register {W} (r : Router W) (i : MsgID) (h : option (HandlerFunc W))
  (m : list (option (MiddlewareFunc W))) : Router W :=
  let hm := match h with
            | Some hf => <[i := hf]> (handlerMapper r)
            | None => handlerMapper r
            end in
  let ms := append_non_nil [] m in
  let mm := if negb (length ms =? 0)%nat
            then <[i := ms]> (middlewaresMapper r)
            else middlewaresMapper r in
  mkRouter hm mm (globalMiddlewares r) (notFoundHandler r) (reqCtxQueue r) (stopped r).

Definition registerMiddleware {W} (r : Router W) (m : list (option (MiddlewareFunc W)))
  : Router W :=
  mkRouter (handlerMapper r) (middlewaresMapper r)
    (append_non_nil (globalMiddlewares r) m)
    (notFoundHandler r) (reqCtxQueue r) (stopped r).

Definition setNotFoundHandler {W} (r : Router W) (handler : option (HandlerFunc W))
  : Router W :=
  mkRouter (handlerMapper r) (middlewaresMapper r) (globalMiddlewares r)
    handler (reqCtxQueue r) (stopped r).

(** The reading of the specification: the first middleware of the list is
    the outermost wrapper, [m1 (m2 (... (mk handler)))]. *)
Definition onion {W} (middles : list (MiddlewareFunc W)) (handler : HandlerFunc W)
  : HandlerFunc W :=
  fold_right (fun m inner => m inner) handler middles.

(** A middleware that records its name before and after the inner call, and
    a handler that records its own; the user world is the record of calls. *)
Inductive mark : Type := Before (name : string) | Handled (name : string) | After (name : string).

Definition bracket (name : string) : MiddlewareFunc (list mark) :=
  fun next ctx w =>
    let '(resp, w') := next ctx (w ++ [Before name]) in
    (resp, w' ++ [After name]).

Definition marking_handler (name : string) (resp : Resp) : HandlerFunc (list mark) :=
  fun _ w => (resp, w ++ [Handled name]).

(** ** The goroutines around a session *)

(** What another goroutine may do to a session while a loop runs: close
    it, receive from [RecvReq()], or call [SendResp]. *)
Inductive env_action : Type :=
| EnvClose
| EnvRecvReq
| EnvSendResp (e : EntryPtr).

Definition env_step (s : Session) (a : env_action) : Session :=
  match a with
  | EnvClose =>
      match Close s with
      | Done r => fst r
      | _ => s
      end
  | EnvRecvReq =>
      match Chan.recv (reqQueue s) with
      | Done r => set_reqQueue s (snd r)
      | Blocked => set_reqQueue s (Chan.park_recv (reqQueue s))
      | Panic _ => s
      end
  | EnvSendResp e =>
      match Chan.send e (respQueue s) with
      | Done q => set_respQueue s q
      | Blocked => set_respQueue s (Chan.park_send e (respQueue s))
      | Panic _ => s
      end
  end.

Definition env_steps (s : Session) (l : list env_action) : Session :=
  fold_left env_step l s.

Inductive loop_status : Type :=
| Returned
| StillRunning
| BlockedForever
| Crashed (msg : string).

(** ** ReadLoop *)

(** One iteration of the read loop as the outside decides it: the error of
    [SetReadDeadline] (asked for only when the timeout is positive), what
    [packer.Unpack] returns, and what the other goroutines do before the
    entry is pushed. *)
Record read_step : Type := mkReadStep {
  rs_deadline : option string;
  rs_unpack : EntryPtr + string;
  rs_env : list env_action
}.

Record read_result : Type := mkReadResult {
  rl_status : loop_status;
  rl_session : Session;
  rl_pushed : list EntryPtr;           (* entries enqueued, in order *)
  rl_reads : list (EntryPtr + string)  (* what the calls of Unpack returned *)
}.

(** The code after the loop: [s.Close()]. *)
Definition read_exit (s : Session) (reads : list (EntryPtr + string)) : read_result :=
  match Close s with
  | Done r => mkReadResult Returned (fst r) [] reads
  | Panic msg => mkReadResult (Crashed msg) s [] reads
  | Blocked => mkReadResult BlockedForever s [] reads
  end.

Definition read_more (entry : EntryPtr) (r : read_result) : read_result :=
  mkReadResult (rl_status r) (rl_session r) (entry :: rl_pushed r)
    (inl entry :: rl_reads r).

(** When the script is used up the peer has hung up: [Unpack] returns
    [io.EOF]. *)
Fixpoint ReadLoop (readTimeout : Z) (script : list read_step) (s : Session)
  : read_result :=
  match script with
  | [] => read_exit s [inr "EOF"]
  | st :: rest =>
      if (0 <? readTimeout) && bool_decide (is_Some (rs_deadline st))
      then read_exit s []
      else
        match rs_unpack st with
        | inr err => read_exit s [inr err]
        | inl entry =>
            let s1 := env_steps s (rs_env st) in
            match safelyPushReqQueue s1 entry with
            | Done (true, s2) => read_more entry (ReadLoop readTimeout rest s2)
            | Done (false, s2) => read_exit s2 [inl entry]
            | Blocked => mkReadResult BlockedForever s1 [] [inl entry]
            | Panic msg => mkReadResult (Crashed msg) s1 [] [inl entry]
            end
        end
  end.


(** ** WriteLoop *)

(** Modelled from the spec: the packer is an interface declared outside the
    sources at hand; [Pack] encodes one entry into bytes or fails.  (Its
    [Unpack] reads the connection: the scripts above give its results.) *)
Definition PackFunc : Type := EntryPtr -> list Z + string.

Record write_step : Type := mkWriteStep {
  ws_env : list env_action;      (* before the receive *)
  ws_deadline : option string;   (* error of SetWriteDeadline *)
  ws_write : option string       (* error of conn.Write *)
}.

Record write_result : Type := mkWriteResult {
  wl_status : loop_status;
  wl_session : Session;
  wl_written : list (list Z);    (* what went to the connection *)
  wl_dropped : list EntryPtr     (* entries the packer refused *)
}.

Definition write_exit (s : Session) : write_result :=
  match Close s with
  | Done r => mkWriteResult Returned (fst r) [] []
  | Panic msg => mkWriteResult (Crashed msg) s [] []
  | Blocked => mkWriteResult BlockedForever s [] []
  end.

Definition write_more (ackMsg : list Z) (r : write_result) : write_result :=
  mkWriteResult (wl_status r) (wl_session r) (ackMsg :: wl_written r) (wl_dropped r).

Definition drop_more (respMsg : EntryPtr) (r : write_result) : write_result :=
  mkWriteResult (wl_status r) (wl_session r) (wl_written r) (respMsg :: wl_dropped r).

(** A script that is used up leaves the loop running. *)
Fixpoint WriteLoop (Pack : PackFunc) (writeTimeout : Z) (script : list write_step)
  (s : Session) : write_result :=
  match script with
  | [] => mkWriteResult StillRunning s [] []
  | st :: rest =>
      let s1 := env_steps s (ws_env st) in
      match Chan.recv (respQueue s1) with
      | Blocked => mkWriteResult BlockedForever s1 [] []
      | Panic msg => mkWriteResult (Crashed msg) s1 [] []
      | Done (None, q) => write_exit (set_respQueue s1 q)
      | Done (Some respMsg, q) =>
          let s2 := set_respQueue s1 q in
          match Pack respMsg with
          | inr err => drop_more respMsg (WriteLoop Pack writeTimeout rest s2)
          | inl ackMsg =>
              if (0 <? writeTimeout) && bool_decide (is_Some (ws_deadline st))
              then write_exit s2
              else
                match ws_write st with
                | Some err => write_exit s2
                | None => write_more ackMsg (WriteLoop Pack writeTimeout rest s2)
                end
          end
      end
  end.

(** ** The dispatch loop *)

(** The router at work: the router, the store of sessions the request
    contexts point into, the per-request goroutines spawned and not yet
    run, the user world of the handlers, and the lines logged with
    [Log.Errorf]. *)
Record World (W : Type) : Type := mkWorld {
  w_router : Router W;
  w_sessions : nat -> Session;
  w_tasks : list Context;
  w_user : W;
  w_log : list string
}.
Arguments mkWorld {W}.
Arguments w_router {W}.
Arguments w_sessions {W}.
Arguments w_tasks {W}.
Arguments w_user {W}.
Arguments w_log {W}.

Definition set_reqCtxQueue {W} (r : Router W) (q : chan Context) : Router W :=
  mkRouter (handlerMapper r) (middlewaresMapper r) (globalMiddlewares r)
    (notFoundHandler r) q (stopped r).

Definition set_router {W} (wd : World W) (r : Router W) : World W :=
  mkWorld r (w_sessions wd) (w_tasks wd) (w_user wd) (w_log wd).

Definition set_session {W} (wd : World W) (sid : nat) (s : Session) : World W :=
  mkWorld (w_router wd) (<[sid := s]> (w_sessions wd)) (w_tasks wd) (w_user wd)
    (w_log wd).

(** The first half of the goroutine [consumeRequest] spawns: the call of
    [handleRequest] and the two early returns.  It yields the entry left
    to send, if any. *)
Definition task_handle {W} (r : Router W) (reqCtx : Context) (u : W)
  : outcome (option Entry * W * list string) :=
  do res <- handleRequest r reqCtx u;
  match snd (fst res) with
  | Some err => Done (None, snd res, ["router handle request err: " ++ err]%string)
  | None => Done (fst (fst res), snd res, [])
  end.

(** The second half: [reqCtx.session.SendResp(respEntry)]. *)
Definition task_send (s : Session) (respEntry : Entry)
  : outcome (Session * list string) :=
  do res <- SendResp s (Some respEntry);
  match fst res with
  | Some err => Done (snd res, ["router send resp err: " ++ err]%string)
  | None => Done (snd res, [])
  end.

(** The goroutine run in one go; a send that finds the queue full parks
    its entry on the queue. *)
Definition run_task {W} (wd : World W) (reqCtx : Context) (rest : list Context)
  : outcome (World W) :=
  do h <- task_handle (w_router wd) reqCtx (w_user wd);
  let '(respEntry, u, lines) := h in
  let wd1 := mkWorld (w_router wd) (w_sessions wd) rest u (w_log wd ++ lines) in
  match respEntry with
  | None => Done wd1
  | Some e =>
      let s := w_sessions wd (session reqCtx) in
      match task_send s e with
      | Done res =>
          Done (mkWorld (w_router wd) (<[session reqCtx := fst res]> (w_sessions wd))
                  rest u (w_log wd1 ++ snd res))
      | Blocked =>
          Done (set_session wd1 (session reqCtx)
                  (set_respQueue s (Chan.park_send (Some e) (respQueue s))))
      | Panic msg => Panic msg
      end
  end.

(** What the other goroutines do between two iterations of the dispatch
    loop: call [stop], submit a request context, close the pending queue,
    close a session, or run the oldest spawned goroutine.  A panic of any
    goroutine ends the program. *)
Inductive denv_action : Type :=
| DStop
| DSubmit (reqCtx : Context)
| DCloseQueue
| DCloseSession (sid : nat)
| DRunTask.

Definition denv_step {W} (wd : World W) (a : denv_action) : outcome (World W) :=
  match a with
  | DStop =>
      do r <- stop (w_router wd);
      Done (set_router wd r)
  | DSubmit reqCtx =>
      match Chan.send reqCtx (reqCtxQueue (w_router wd)) with
      | Done q => Done (set_router wd (set_reqCtxQueue (w_router wd) q))
      | Blocked =>
          Done (set_router wd (set_reqCtxQueue (w_router wd)
                  (Chan.park_send reqCtx (reqCtxQueue (w_router wd)))))
      | Panic msg => Panic msg
      end
  | DCloseQueue =>
      do q <- Chan.close (reqCtxQueue (w_router wd));
      Done (set_router wd (set_reqCtxQueue (w_router wd) q))
  | DCloseSession sid =>
      do res <- Close (w_sessions wd sid);
      Done (set_session wd sid (fst res))
  | DRunTask =>
      match w_tasks wd with
      | [] => Done wd
      | reqCtx :: rest => run_task wd reqCtx rest
      end
  end.

(** The actions in order, up to the first panic: the world reached and
    the message of the panic, if any. *)
Fixpoint denv_steps {W} (wd : World W) (l : list denv_action)
  : World W * option string :=
  match l with
  | [] => (wd, None)
  | a :: l' =>
      match denv_step wd a with
      | Done wd' => denv_steps wd' l'
      | Panic msg => (wd, Some msg)
      | Blocked => denv_steps wd l'
      end
  end.

Inductive decision : Type :=
| SkipClosedSession (reqCtx : Context)
| SkipNilMsg (reqCtx : Context)
| Spawn (reqCtx : Context).

Inductive dispatch_status : Type :=
| Dispatching                 (* the script is used up, the loop goes on *)
| Waiting                     (* parked in the select *)
| ReturnedOnStop
| ReturnedOnClosedQueue
| ProgramCrashed (msg : string).

Inductive iter_result (W : Type) : Type :=
| Continue (wd : World W) (d : decision)
| Exit (st : dispatch_status) (wd : World W).
Arguments Continue {W}.
Arguments Exit {W}.

(** Whether a receive on the channel can proceed at once. *)
Definition ready {A} (c : chan A) : bool :=
  match Chan.recv c with
  | Blocked => false
  | _ => true
  end.

(** One iteration of the [for] of [consumeRequest]; [pick_stop] is the
    choice [select] makes when both cases are ready. *)
Definition consume_iter {W} (pick_stop : bool) (wd : World W) : iter_result W :=
  let r := w_router wd in
  if ready (stopped r) && (pick_stop || negb (ready (reqCtxQueue r))) then
    match Chan.close (reqCtxQueue r) with
    | Done q => Exit ReturnedOnStop (set_router wd (set_reqCtxQueue r q))
    | Panic msg => Exit (ProgramCrashed msg) wd
    | Blocked => Exit Waiting wd
    end
  else
    match Chan.recv (reqCtxQueue r) with
    | Blocked => Exit Waiting wd
    | Panic msg => Exit (ProgramCrashed msg) wd
    | Done (None, _) => Exit ReturnedOnClosedQueue wd
    | Done (Some reqCtx, q) =>
        let wd1 := set_router wd (set_reqCtxQueue r q) in
        if ready (closed (w_sessions wd (session reqCtx))) then
          Continue wd1 (SkipClosedSession reqCtx)
        else
          match reqMsg reqCtx with
          | None => Continue wd1 (SkipNilMsg reqCtx)
          | Some _ =>
              Continue (mkWorld (w_router wd1) (w_sessions wd1)
                          (w_tasks wd1 ++ [reqCtx]) (w_user wd1) (w_log wd1))
                (Spawn reqCtx)
          end
    end.

Record dispatch_step : Type := mkDispatchStep {
  ds_env : list denv_action;
  ds_pick_stop : bool
}.

Record dispatch_result (W : Type) : Type := mkDispatchResult {
  dr_status : dispatch_status;
  dr_world : World W;
  dr_decisions : list decision
}.
Arguments mkDispatchResult {W}.
Arguments dr_status {W}.
Arguments dr_world {W}.
Arguments dr_decisions {W}.

Fixpoint consumeRequest {W} (script : list dispatch_step) (wd : World W)
  : dispatch_result W :=
  match script with
  | [] => mkDispatchResult Dispatching wd []
  | st :: rest =>
      match denv_steps wd (ds_env st) with
      | (wd1, Some msg) => mkDispatchResult (ProgramCrashed msg) wd1 []
      | (wd1, None) =>
          match consume_iter (ds_pick_stop st) wd1 with
          | Exit status wd2 => mkDispatchResult status wd2 []
          | Continue wd2 d =>
              let res := consumeRequest rest wd2 in
              mkDispatchResult (dr_status res) (dr_world res) (d :: dr_decisions res)
          end
      end
  end.

(** The invariant of a running router: nothing is ever sent on [stopped],
    the sessions are well formed, and the goroutines spawned hold a
    request message. *)
Definition world_ok {W} (wd : World W) : Prop :=
  Chan.buf (stopped (w_router wd)) = [] /\
  Chan.sendq (stopped (w_router wd)) = [] /\
  (forall sid, session_ok (w_sessions wd sid)) /\
  Forall (fun c => reqMsg c <> None) (w_tasks wd).

(** [stop] has been called or the pending queue has been closed. *)
Definition router_closed {W} (wd : World W) : Prop :=
  Chan.is_closed (stopped (w_router wd)) = true
  \/ Chan.is_closed (reqCtxQueue (w_router wd)) = true.

(** What holds of the world in which the loop has ended with a status. *)
Definition exit_reason {W} (status : dispatch_status) (wd : World W) : Prop :=
  match status with
  | ReturnedOnStop =>
      Chan.is_closed (stopped (w_router wd)) = true
      /\ Chan.is_closed (reqCtxQueue (w_router wd)) = true
  | ReturnedOnClosedQueue => Chan.is_closed (reqCtxQueue (w_router wd)) = true
  | ProgramCrashed _ => router_closed wd
  | Dispatching | Waiting => True
  end.

Definition spawn_has_msg (d : decision) : Prop :=
  match d with
  | Spawn c => reqMsg c <> None
  | _ => True
  end.

(** The list of the non-nil elements, as the specification words it. *)
Fixpoint non_nil {A} (l : list (option A)) : list A :=
  match l with
  | [] => []
  | Some x :: l' => x :: non_nil l'
  | None :: l' => non_nil l'
  end.

(** ** Sample data *)

(** A fresh session with both queues of capacity one. *)
Definition session0 : Session :=
  mkSession "s0" false (Chan.mk [] 0 [] 0 false) (Chan.mk [] 1 [] 0 false)
    (Chan.mk [] 1 [] 0 false).

Definition ping : Entry := mkEntry (IntID 1) [112; 105; 110; 103].
Definition pong : Entry := mkEntry (IntID 2) [112; 111; 110; 103].

(** A router with the global middlewares A, B, the middlewares C, D for
    message 1 and a handler for message 1. *)
Definition router_abcd : Router (list mark) :=
  register
    (registerMiddleware
       (mkRouter ∅ ∅ [] None (Chan.mk [] 0 [] 0 false) (Chan.mk [] 0 [] 0 false))
       [Some (bracket "A"); None; Some (bracket "B")])
    (IntID 1) (Some (marking_handler "h" (Some pong, None)))
    [Some (bracket "C"); None; Some (bracket "D")].

Definition ctx_ping : Context := mkContext 0 (Some ping).

(** A session whose inbound queue holds two entries, and a connection that
    delivers two frames and then a bad one. *)
Definition session2 : Session :=
  mkSession "s2" false (Chan.mk [] 0 [] 0 false) (Chan.mk [] 2 [] 0 false)
    (Chan.mk [] 2 [] 0 false).

Definition bad_third_frame : list read_step :=
  [mkReadStep None (inl (Some ping)) [];
   mkReadStep None (inl (Some pong)) [];
   mkReadStep None (inr "bad frame") [];
   mkReadStep None (inl (Some ping)) []].

(** A packer that refuses the entries of message 2. *)
Definition picky_pack : PackFunc :=
  fun e =>
    match e with
    | Some (mkEntry (IntID 2) _) => inr "cannot pack"
    | Some (mkEntry _ d) => inl d
    | None => inr "nil entry"
    end.

(** Two responses are sent by handlers, the first of which cannot be
    packed. *)
Definition drop_then_write : list write_step :=
  [mkWriteStep [EnvSendResp (Some pong); EnvSendResp (Some ping)] None None;
   mkWriteStep [] None None;
   mkWriteStep [EnvClose] None None].

Definition write_fails : list write_step :=
  [mkWriteStep [EnvSendResp (Some ping); EnvSendResp (Some ping)] None (Some "broken pipe");
   mkWriteStep [] None None].

(** A router at work on two sessions, the second of which is closed. *)
Definition closed_session : Session :=
  mkSession "s1" true (Chan.mk [] 0 [] 0 true) (Chan.mk [] 1 [] 0 true)
    (Chan.mk [] 1 [] 0 true).

Definition failing_handler : HandlerFunc (list mark) :=
  fun _ w => ((None, Some "boom"), w ++ [Handled "fail"]).

Definition world0 : World (list mark) :=
  mkWorld
    (register
       (mkRouter (handlerMapper router_abcd) (middlewaresMapper router_abcd)
          (globalMiddlewares router_abcd) None
          (Chan.mk [] 4 [] 0 false) (Chan.mk [] 0 [] 0 false))
       (IntID 3) (Some failing_handler) [])
    (fun sid => match sid with 1%nat => closed_session | _ => session0 end)
    [] [] [].

(** Requests for a closed session, without a message, with a failing
    handler and with a good one; then the router is stopped. *)
Definition busy_script : list dispatch_step :=
  [mkDispatchStep
     [DSubmit (mkContext 1 (Some ping)); DSubmit (mkContext 0 None);
      DSubmit (mkContext 0 (Some (mkEntry (IntID 3) []))); DSubmit ctx_ping] false;
   mkDispatchStep [] false;
   mkDispatchStep [] false;
   mkDispatchStep [DRunTask] false;
   mkDispatchStep [DRunTask; DStop] true;
   mkDispatchStep [] false].

(** ** Auxiliary definitions for the statements on the rest of the code *)





(** A read step with the result of [SetReadDeadline] replaced by success. *)
Definition clear_deadline (st : read_step) : read_step :=
  mkReadStep None (rs_unpack st) (rs_env st).

(** What the dispatch loop does with a request context, given the sessions. *)
Definition classify (sessions : nat -> Session) (c : Context) : decision :=
  if closeOnce (sessions (session c)) then SkipClosedSession c
  else match reqMsg c with
       | None => SkipNilMsg c
       | Some _ => Spawn c
       end.

(** The contexts of a list the dispatch loop spawns a goroutine for. *)
Fixpoint spawned (sessions : nat -> Session) (cs : list Context) : list Context :=
  match cs with
  | [] => []
  | c :: cs' =>
      match classify sessions c with
      | Spawn _ => c :: spawned sessions cs'
      | _ => spawned sessions cs'
      end
  end.

(** A world whose pending queue holds four request contexts. *)
Definition world_queued : World (list mark) :=
  mkWorld
    (set_reqCtxQueue (w_router world0)
       (Chan.mk [mkContext 1 (Some ping); mkContext 0 None;
                 mkContext 0 (Some (mkEntry (IntID 3) [])); ctx_ping]
          4 [] 0 false))
    (w_sessions world0) [] [] [].

(** A world in which [stop] has been called while two contexts wait. *)
Definition world_stopped : World (list mark) :=
  mkWorld
    (mkRouter (handlerMapper (w_router world0)) (middlewaresMapper (w_router world0))
       (globalMiddlewares (w_router world0)) None
       (Chan.mk [ctx_ping; ctx_ping] 4 [] 0 false) (Chan.mk [] 0 [] 0 true))
    (w_sessions world0) [] [] [].

(** A middleware that answers by itself and never calls the next handler. *)
Definition deny : MiddlewareFunc (list mark) :=
  fun _ => marking_handler "denied" (None, Some "denied").

(** * Properties *)

(** ** Sessions *)

Lemma NewSession_ok (uuid : string) (opt : SessionOption) (s : Session) :
  NewSession uuid opt = Done s -> session_ok s /\ closeOnce s = false.
Proof.
  unfold NewSession, Chan.make, obind. simpl.
  destruct (ReadBufferSize opt <? 0); [discriminate|].
  destruct (WriteBufferSize opt <? 0); [discriminate|].
  intros [= <-]. unfold session_ok. simpl. auto 10.
Qed.

(** On a well-formed session [Close] never panics: it runs the closing
    function when the once is unset and does nothing otherwise. *)
Lemma Close_open (s : Session) :
  session_ok s -> closeOnce s = false ->
  exists s', Close s = Done (s', [CloseChan QClosed; CloseChan QReq; CloseChan QResp])
    /\ session_ok s' /\ is_closed_session s'.
Proof.
  intros (Hc & Hq & Hp & Hb & Hs) Hon.
  rewrite Hon in Hc, Hq, Hp.
  unfold Close, Close_func, Chan.close, obind.
  rewrite Hon, Hc, Hq, Hp. simpl.
  eexists. split; [reflexivity|].
  unfold session_ok, is_closed_session. simpl. auto 10.
Qed.

Lemma Close_fired (s : Session) :
  closeOnce s = true -> Close s = Done (s, []).
Proof. intros H. unfold Close. rewrite H. reflexivity. Qed.

Lemma ok_fired_closed (s : Session) :
  session_ok s -> closeOnce s = true -> is_closed_session s.
Proof.
  intros (Hc & Hq & Hp & _) H. unfold is_closed_session.
  rewrite Hc, Hq, Hp. auto.
Qed.

Lemma Close_total (s : Session) :
  session_ok s ->
  exists s' effs, Close s = Done (s', effs) /\ session_ok s' /\ is_closed_session s'.
Proof.
  intros Hok. destruct (closeOnce s) eqn:Hon.
  - exists s, []. split; [apply Close_fired; assumption|].
    split; [assumption|]. apply ok_fired_closed; assumption.
  - destruct (Close_open s Hok Hon) as (s' & H1 & H2 & H3).
    eauto.
Qed.

Lemma closed_is_fired (s : Session) : is_closed_session s -> closeOnce s = true.
Proof. intros H; apply H. Qed.

Lemma SendResp_closed (s : Session) (respMsg : EntryPtr) :
  is_closed_session s -> SendResp s respMsg = Done (Some "session's closed", s).
Proof.
  intros (_ & _ & _ & Hp).
  unfold SendResp, safelyPushRespQueue, Chan.send, obind. rewrite Hp. reflexivity.
Qed.

Lemma send_keeps_flag {A} (v : A) (c c' : chan A) :
  Chan.send v c = Done c' -> Chan.is_closed c' = Chan.is_closed c.
Proof.
  unfold Chan.send. destruct (Chan.is_closed c); [discriminate|].
  destruct (0 <? Chan.recvq c)%nat; [intros [= <-]; reflexivity|].
  destruct (length (Chan.buf c) <? Chan.cap c)%nat; [|discriminate].
  intros [= <-]; reflexivity.
Qed.

Lemma recv_keeps_flag {A} (c c' : chan A) (v : option A) :
  Chan.recv c = Done (v, c') -> Chan.is_closed c' = Chan.is_closed c.
Proof.
  unfold Chan.recv.
  destruct (Chan.buf c), (Chan.sendq c); try (intros [= <- <-]; reflexivity).
  destruct (Chan.is_closed c) eqn:E; [|discriminate].
  intros [= <- <-]; exact E.
Qed.

(** The other goroutines keep a session well formed, and never reopen it. *)
Lemma env_step_ok (s : Session) (a : env_action) :
  session_ok s -> session_ok (env_step s a).
Proof.
  intros Hok. destruct a as [| |e]; simpl.
  - destruct (Close_total s Hok) as (s' & effs & -> & H & _). exact H.
  - destruct (Chan.recv (reqQueue s)) as [[v q]| |] eqn:E; try assumption.
    + apply recv_keeps_flag in E.
      destruct Hok as (Hc & Hq & Hp & Hb & Hs).
      unfold session_ok, set_reqQueue; simpl. rewrite E. auto 10.
  - destruct (Chan.send e (respQueue s)) as [q| |] eqn:E; try assumption.
    + apply send_keeps_flag in E.
      destruct Hok as (Hc & Hq & Hp & Hb & Hs).
      unfold session_ok, set_respQueue; simpl. rewrite E. auto 10.
Qed.

Lemma env_step_fired (s : Session) (a : env_action) :
  session_ok s -> closeOnce s = true -> closeOnce (env_step s a) = true.
Proof.
  intros Hok Hon. destruct a as [| |e]; simpl.
  - rewrite (Close_fired s Hon). exact Hon.
  - destruct (Chan.recv (reqQueue s)) as [[v q]| |]; exact Hon.
  - destruct (Chan.send e (respQueue s)) as [q| |]; exact Hon.
Qed.

Lemma env_steps_ok (l : list env_action) (s : Session) :
  session_ok s -> session_ok (env_steps s l).
Proof.
  revert s. induction l as [|a l IH]; intros s Hok; simpl; [assumption|].
  apply IH, env_step_ok, Hok.
Qed.

Lemma env_steps_closed (l : list env_action) (s : Session) :
  session_ok s -> is_closed_session s -> is_closed_session (env_steps s l).
Proof.
  revert s. induction l as [|a l IH]; intros s Hok Hcl; simpl; [assumption|].
  apply IH; [apply env_step_ok, Hok|].
  apply ok_fired_closed; [apply env_step_ok, Hok|].
  apply env_step_fired; [exact Hok | apply Hcl].
Qed.

(** C2. After [Close] has been called on a session, [SendResp] returns the
    error "session's closed" for every entry and leaves the session as it
    is, whatever the other goroutines have done to the session since; it
    neither panics nor blocks. *)
Theorem SendResp_after_Close (s : Session) (Hok : session_ok s) :
  exists s' effs, Close s = Done (s', effs) /\
    forall (l : list env_action) (respMsg : EntryPtr),
      SendResp (env_steps s' l) respMsg
      = Done (Some "session's closed", env_steps s' l).
Proof.
  destruct (Close_total s Hok) as (s' & effs & HC & Hok' & Hcl).
  exists s', effs. split; [exact HC|].
  intros l respMsg. apply SendResp_closed, env_steps_closed; assumption.
Qed.

Lemma session0_new : NewSession "s0" (mkSessionOption 1 1) = Done session0.
Proof. reflexivity. Qed.

Lemma session0_ok : session_ok session0.
Proof. unfold session_ok; simpl; auto. Qed.

Lemma SendResp_after_Close_witness :
  exists s' effs, Close session0 = Done (s', effs) /\
    forall (l : list env_action) (respMsg : EntryPtr),
      SendResp (env_steps s' l) respMsg
      = Done (Some "session's closed", env_steps s' l).
Proof. apply (SendResp_after_Close session0). unfold session_ok; simpl; auto. Defined.

Lemma Close_times_fired (n : nat) (s : Session) :
  closeOnce s = true -> Close_times n s = Done (s, []).
Proof.
  intros H. induction n as [|n IH]; simpl; [reflexivity|].
  rewrite (Close_fired s H). simpl. rewrite IH. reflexivity.
Qed.

Lemma WaitUntilClosed_closed (s : Session) :
  session_ok s -> is_closed_session s -> WaitUntilClosed s = Done tt.
Proof.
  intros (_ & _ & _ & Hb & Hs) (_ & Hc & _).
  unfold WaitUntilClosed, Chan.recv, obind. rewrite Hb, Hs, Hc. reflexivity.
Qed.

(** C3. On a session that has not been closed, any number [n >= 1] of calls
    of [Close] performs the three channel closes once, in the first call:
    the calls together leave the state and the effects of a single call,
    one more call changes nothing and has no effect, and
    [WaitUntilClosed] returns from then on. *)
Theorem Close_idempotent (s : Session) (n : nat)
  (Hok : session_ok s) (Hopen : closeOnce s = false) :
  exists s',
    Close s = Done (s', [CloseChan QClosed; CloseChan QReq; CloseChan QResp]) /\
    Close_times (S n) s
      = Done (s', [CloseChan QClosed; CloseChan QReq; CloseChan QResp]) /\
    Close s' = Done (s', []) /\
    is_closed_session s' /\
    WaitUntilClosed s' = Done tt.
Proof.
  destruct (Close_open s Hok Hopen) as (s' & HC & Hok' & Hcl).
  exists s'. split; [exact HC|].
  split.
  - simpl. rewrite HC. simpl.
    rewrite (Close_times_fired n s' (closed_is_fired s' Hcl)). reflexivity.
  - split; [apply Close_fired, Hcl|].
    split; [exact Hcl|]. apply WaitUntilClosed_closed; assumption.
Qed.

Lemma Close_idempotent_witness :
  exists s',
    Close session0 = Done (s', [CloseChan QClosed; CloseChan QReq; CloseChan QResp]) /\
    Close_times 4 session0
      = Done (s', [CloseChan QClosed; CloseChan QReq; CloseChan QResp]) /\
    Close s' = Done (s', []) /\
    is_closed_session s' /\
    WaitUntilClosed s' = Done tt.
Proof.
  apply (Close_idempotent session0 3); [unfold session_ok; simpl; auto | reflexivity].
Defined.

(** ** Slices *)

(** The slice [append] returns shows the old elements followed by the new
    ones, whether the array is shared or fresh. *)
Lemma Slice_append_view {A} (zero : A) (newcap : nat) (s : Slice.slice A)
  (vs : list A) :
  (Slice.len s <= length (Slice.arr s))%nat ->
  Slice.view (Slice.append zero newcap s vs) = Slice.view s ++ vs.
Proof.
  intros Hlen. unfold Slice.view, Slice.append.
  assert (Hf : length (firstn (Slice.len s) (Slice.arr s)) = Slice.len s)
    by (rewrite length_firstn; lia).
  destruct (Slice.len s + length vs <=? length (Slice.arr s))%nat; simpl;
    rewrite app_assoc;
    rewrite firstn_app, firstn_all2 by (rewrite length_app; lia);
    rewrite length_app, Hf, Nat.sub_diag; simpl; rewrite app_nil_r; reflexivity.
Qed.

(** The slice appended to still shows its own elements on the array
    [append] has written to. *)
Lemma Slice_append_keeps_base {A} (zero : A) (newcap : nat) (s : Slice.slice A)
  (vs : list A) :
  (Slice.len s <= length (Slice.arr s))%nat ->
  firstn (Slice.len s) (Slice.arr (Slice.append zero newcap s vs)) = Slice.view s.
Proof.
  intros Hlen. unfold Slice.view, Slice.append.
  assert (Hf : length (firstn (Slice.len s) (Slice.arr s)) = Slice.len s)
    by (rewrite length_firstn; lia).
  destruct (Slice.len s + length vs <=? length (Slice.arr s))%nat; simpl;
    rewrite firstn_app, Hf, Nat.sub_diag; simpl; rewrite app_nil_r;
    rewrite firstn_all2 by lia; reflexivity.
Qed.

(** ** Handler resolution and middleware composition *)

Lemma wrap_loop_app {W} (pre post : list (MiddlewareFunc W)) (h : HandlerFunc W) :
  wrap_loop (pre ++ post) (length pre) h = onion pre h.
Proof.
  revert post h. induction pre as [|m pre IH] using rev_ind; intros post h.
  - reflexivity.
  - rewrite length_app, Nat.add_comm. simpl.
    rewrite <- app_assoc. simpl.
    rewrite nth_error_app2 by lia. rewrite Nat.sub_diag. simpl.
    rewrite IH. unfold onion. rewrite fold_right_app. reflexivity.
Qed.

(** The loop of [wrapHandlers] builds [m1 (m2 (... (mk handler)))]. *)
Lemma wrapHandlers_onion {W} (r : Router W) (handler : option (HandlerFunc W))
  (middles : list (MiddlewareFunc W)) :
  wrapHandlers r handler middles = onion middles (resolve_handler r handler).
Proof.
  unfold wrapHandlers.
  rewrite <- (app_nil_r middles) at 1. apply wrap_loop_app.
Qed.

Lemma handleRequest_unfold {W} (r : Router W) (ctx : Context) (e : Entry) (w : W) :
  reqMsg ctx = Some e ->
  handleRequest r ctx w
  = Done (onion (middlewares_for r (ID e))
            (resolve_handler r (handlerMapper r !! ID e)) ctx w).
Proof.
  intros H. unfold handleRequest. rewrite H.
  rewrite wrapHandlers_onion. reflexivity.
Qed.

(** Middlewares that bracket the inner call run in list order on the way
    in and in the reverse order on the way out. *)
Lemma onion_brackets (names : list string) (h : HandlerFunc (list mark))
  (ctx : Context) (w : list mark) :
  onion (map bracket names) h ctx w
  = (fst (h ctx (w ++ map Before names)),
     snd (h ctx (w ++ map Before names)) ++ map After (rev names)).
Proof.
  revert w. induction names as [|n names IH]; intros w; simpl.
  - rewrite !app_nil_r. destruct (h ctx w); reflexivity.
  - unfold bracket at 1. fold (onion (map bracket names) h).
    rewrite IH. rewrite <- app_assoc. simpl.
    rewrite map_app, app_assoc. reflexivity.
Qed.



(** C7. For a request whose message id has no handler registered,
    [handleRequest] runs the not-found handler when one is set and
    [nilHandler] otherwise, inside the same middleware chain: the global
    middlewares come first in it.  [nilHandler] returns no entry and no
    error and leaves the user world alone. *)
Theorem handleRequest_not_found {W} (r : Router W) (ctx : Context) (e : Entry)
  (w : W)
  (Hmsg : reqMsg ctx = Some e)
  (Hnone : handlerMapper r !! ID e = None) :
  handleRequest r ctx w
  = Done (onion (middlewares_for r (ID e))
            (match notFoundHandler r with
             | Some nf => nf
             | None => nilHandler
             end) ctx w)
  /\ (exists per_id, middlewares_for r (ID e) = globalMiddlewares r ++ per_id)
  /\ (forall (c : Context) (u : W), nilHandler c u = ((None, None), u)).
Proof.
  split; [|split].
  - rewrite (handleRequest_unfold r ctx e w Hmsg), Hnone.
    unfold resolve_handler. destruct (notFoundHandler r); reflexivity.
  - unfold middlewares_for. destruct (middlewaresMapper r !! ID e) as [v|].
    + exists v. reflexivity.
    + exists []. rewrite app_nil_r. reflexivity.
  - reflexivity.
Qed.

Lemma handleRequest_not_found_witness :
  reqMsg (mkContext 0 (Some pong)) = Some pong /\
  handlerMapper router_abcd !! ID pong = None /\
  handleRequest
    (setNotFoundHandler router_abcd (Some (marking_handler "nf" (None, None))))
    (mkContext 0 (Some pong)) []
  = Done ((None, None),
          [Before "A"; Before "B"; Handled "nf"; After "B"; After "A"]) /\
  handleRequest router_abcd (mkContext 0 (Some pong)) []
  = Done ((None, None), [Before "A"; Before "B"; After "B"; After "A"]).
Proof.
  split; [reflexivity|]. split; [reflexivity|].
  split.
  - destruct (handleRequest_not_found
                (setNotFoundHandler router_abcd
                   (Some (marking_handler "nf" (None, None))))
                (mkContext 0 (Some pong)) pong [] eq_refl eq_refl) as [-> _].
    reflexivity.
  - destruct (handleRequest_not_found router_abcd
                (mkContext 0 (Some pong)) pong [] eq_refl eq_refl) as [-> _].
    reflexivity.
Defined.

(** ** Registration *)

Lemma append_non_nil_spec {A} (m : list (option A)) (acc : list A) :
  append_non_nil acc m = acc ++ non_nil m.
Proof.
  unfold append_non_nil. revert acc.
  induction m as [|[x|] m IH]; intros acc; simpl.
  - rewrite app_nil_r. reflexivity.
  - rewrite IH, <- app_assoc. reflexivity.
  - apply IH.
Qed.

Lemma non_nil_elem {A} (m : list (option A)) (x : A) :
  In x (non_nil m) <-> In (Some x) m.
Proof.
  induction m as [|[y|] m IH]; simpl.
  - tauto.
  - rewrite IH. split; intros [H|H]; auto; left; congruence.
  - rewrite IH. split; [auto|]. intros [H|H]; [discriminate|exact H].
Qed.

(** C8. [register] writes the handler registry only for a non-nil handler
    (and then the entry of the id is that handler, whatever was there
    before), and writes the per-id middleware registry only when the list
    of the non-nil middlewares given is not empty (and then the entry of
    the id is that filtered list, in the order given); all other entries
    and fields of the router are kept. *)
Theorem register_stores {W} (r : Router W) (i : MsgID)
  (h : option (HandlerFunc W)) (m : list (option (MiddlewareFunc W))) :
  handlerMapper (register r i h m)
  = match h with
    | Some hf => <[i := hf]> (handlerMapper r)
    | None => handlerMapper r
    end
  /\ middlewaresMapper (register r i h m)
     = match non_nil m with
       | [] => middlewaresMapper r
       | ms => <[i := ms]> (middlewaresMapper r)
       end
  /\ (forall x, In x (non_nil m) <-> In (Some x) m)
  /\ (forall (h1 h2 : HandlerFunc W) m1 m2,
        handlerMapper (register (register r i (Some h1) m1) i (Some h2) m2) !! i
        = Some h2)
  /\ (forall (h1 : HandlerFunc W) m1 m2,
        handlerMapper (register (register r i (Some h1) m1) i None m2) !! i
        = Some h1)
  /\ globalMiddlewares (register r i h m) = globalMiddlewares r
  /\ notFoundHandler (register r i h m) = notFoundHandler r.
Proof.
  split; [reflexivity|].
  split.
  { unfold register; simpl. rewrite append_non_nil_spec. simpl.
    destruct (non_nil m); reflexivity. }
  split; [intros x; apply non_nil_elem|].
  split; [intros; simpl; apply lookup_insert_eq|].
  split; [intros; simpl; apply lookup_insert_eq|].
  split; reflexivity.
Qed.

(** [registerMiddleware] appends the non-nil middlewares in call order. *)
Lemma registerMiddleware_appends {W} (r : Router W)
  (m : list (option (MiddlewareFunc W))) :
  globalMiddlewares (registerMiddleware r m) = globalMiddlewares r ++ non_nil m.
Proof. apply append_non_nil_spec. Qed.

(** ** Construction *)

(** C10. When no capacity is given, or the first capacity given is zero or
    negative, [newRouter] makes the pending-request queue with capacity 0:
    it returns a router whose queue is open, empty and unbuffered, and it
    does not panic. *)
Theorem newRouter_unbuffered {W} (queueSize : list Z)
  (Hsize : match queueSize with [] => True | qs :: _ => qs <= 0 end) :
  exists r : Router W,
    newRouter queueSize = Done r /\
    reqCtxQueue r = Chan.mk [] 0 [] 0 false /\
    stopped r = Chan.mk [] 0 [] 0 false.
Proof.
  unfold newRouter. destruct queueSize as [|qs rest].
  - eexists. split; [reflexivity|]. split; reflexivity.
  - destruct (Z.ltb_spec 0 qs) as [Hlt|Hge]; [lia|].
    eexists. split; [reflexivity|]. split; reflexivity.
Qed.

Lemma newRouter_unbuffered_witness :
  (-3 <= 0) /\
  exists r : Router unit,
    newRouter [-3; 8] = Done r /\
    reqCtxQueue r = Chan.mk [] 0 [] 0 false /\
    stopped r = Chan.mk [] 0 [] 0 false.
Proof.
  split; [lia|]. apply (newRouter_unbuffered [-3; 8]). simpl. lia.
Defined.


(** ** The read loop *)


Lemma read_exit_ok (s : Session) (reads : list (EntryPtr + string)) :
  session_ok s ->
  exists s', read_exit s reads = mkReadResult Returned s' [] reads
             /\ is_closed_session s'.
Proof.
  intros Hok. destruct (Close_total s Hok) as (s' & effs & HC & _ & Hcl).
  exists s'. unfold read_exit. rewrite HC. auto.
Qed.





(** ** The write loop *)

Lemma recv_respQueue_ok (s : Session) (v : option EntryPtr) (q : chan EntryPtr) :
  session_ok s -> Chan.recv (respQueue s) = Done (v, q) ->
  session_ok (set_respQueue s q).
Proof.
  intros (Hc & Hq & Hp & Hb & Hs) E. apply recv_keeps_flag in E.
  unfold session_ok, set_respQueue; simpl. rewrite E. auto 10.
Qed.

Lemma write_exit_ok (s : Session) :
  session_ok s ->
  exists s' effs, Close s = Done (s', effs)
    /\ write_exit s = mkWriteResult Returned s' [] []
    /\ is_closed_session s'.
Proof.
  intros Hok. destruct (Close_total s Hok) as (s' & effs & HC & _ & Hcl).
  exists s', effs. unfold write_exit. rewrite HC. auto.
Qed.

(** Whenever the write loop returns, the session is closed; on a
    well-formed session it never panics. *)
Lemma WriteLoop_exit_closed (Pack : PackFunc) (writeTimeout : Z)
  (script : list write_step) (s : Session) :
  session_ok s ->
  (wl_status (WriteLoop Pack writeTimeout script s) = Returned ->
   is_closed_session (wl_session (WriteLoop Pack writeTimeout script s)))
  /\ (forall msg, wl_status (WriteLoop Pack writeTimeout script s) <> Crashed msg).
Proof.
  revert s. induction script as [|st rest IH]; intros s Hok; simpl.
  - split; [discriminate|]. intros msg; discriminate.
  - pose proof (env_steps_ok (ws_env st) s Hok) as Hok1.
    destruct (Chan.recv (respQueue (env_steps s (ws_env st))))
      as [[[respMsg|] q]| |] eqn:E; simpl.
    + pose proof (recv_respQueue_ok _ _ _ Hok1 E) as Hok2.
      destruct (Pack respMsg) as [ackMsg|err]; [|apply (IH _ Hok2)].
      destruct ((0 <? writeTimeout) && bool_decide (is_Some (ws_deadline st))).
      { destruct (write_exit_ok _ Hok2) as (s' & effs & _ & -> & Hcl). simpl.
        split; [auto|]. intros msg; discriminate. }
      destruct (ws_write st).
      { destruct (write_exit_ok _ Hok2) as (s' & effs & _ & -> & Hcl). simpl.
        split; [auto|]. intros msg; discriminate. }
      apply (IH _ Hok2).
    + pose proof (recv_respQueue_ok _ _ _ Hok1 E) as Hok2.
      destruct (write_exit_ok _ Hok2) as (s' & effs & _ & -> & Hcl). simpl.
      split; [auto|]. intros msg; discriminate.
    + unfold Chan.recv in E.
      destruct (Chan.buf _), (Chan.sendq _); try discriminate.
      destruct (Chan.is_closed _); discriminate.
    + split; [discriminate|]. intros msg; discriminate.
Qed.

(** C5. Let the write loop receive the entry [respMsg] in an iteration.
    If the packer fails on it, the run is the run of the rest of the loop
    on the next queued entries with [respMsg] recorded as dropped and
    nothing written for it.  If it is packed and arming the deadline
    fails (asked for only with a positive timeout) or the write fails, the
    loop returns at once: nothing is written, the entries still queued
    stay queued, and [Close] has been called.  And whenever the loop
    returns, for any script, the session is closed. *)
Theorem WriteLoop_errors (Pack : PackFunc) (writeTimeout : Z)
  (st : write_step) (rest : list write_step) (s : Session)
  (respMsg : EntryPtr) (q : chan EntryPtr)
  (Hok : session_ok s)
  (Hrecv : Chan.recv (respQueue (env_steps s (ws_env st))) = Done (Some respMsg, q)) :
  (forall err, Pack respMsg = inr err ->
     WriteLoop Pack writeTimeout (st :: rest) s
     = drop_more respMsg
         (WriteLoop Pack writeTimeout rest
            (set_respQueue (env_steps s (ws_env st)) q)))
  /\ (forall ackMsg, Pack respMsg = inl ackMsg ->
      (0 < writeTimeout /\ is_Some (ws_deadline st)) \/ is_Some (ws_write st) ->
      exists s' effs,
        Close (set_respQueue (env_steps s (ws_env st)) q) = Done (s', effs)
        /\ WriteLoop Pack writeTimeout (st :: rest) s
           = mkWriteResult Returned s' [] []
        /\ is_closed_session s'
        /\ Chan.buf (respQueue s') = Chan.buf q)
  /\ (forall script,
        wl_status (WriteLoop Pack writeTimeout script s) = Returned ->
        is_closed_session (wl_session (WriteLoop Pack writeTimeout script s))).
Proof.
  split; [|split].
  - intros err HP. simpl. rewrite Hrecv, HP. reflexivity.
  - intros ackMsg HP Hfail. simpl. rewrite Hrecv, HP.
    pose proof (env_steps_ok (ws_env st) s Hok) as Hok1.
    pose proof (recv_respQueue_ok _ _ _ Hok1 Hrecv) as Hok2.
    destruct (write_exit_ok _ Hok2) as (s' & effs & HC & HW & Hcl).
    assert (Hbuf : Chan.buf (respQueue s') = Chan.buf q).
    { revert HC. unfold Close, Close_func, Chan.close, obind.
      destruct (closeOnce _); [intros [= <- _]; reflexivity|].
      destruct (Chan.is_closed (closed _)); [discriminate|].
      destruct (Chan.is_closed (reqQueue _)); [discriminate|].
      destruct (Chan.is_closed (respQueue _)); [discriminate|].
      intros [= <- _]; reflexivity. }
    exists s', effs. split; [exact HC|].
    split; [|split; assumption].
    destruct ((0 <? writeTimeout) && bool_decide (is_Some (ws_deadline st))) eqn:Ed;
      [exact HW|].
    destruct (ws_write st) as [e|] eqn:Ew; [exact HW|].
    exfalso. destruct Hfail as [[Hpos Hdl]|Hw].
    + apply andb_false_iff in Ed. destruct Ed as [Ed|Ed].
      * apply Z.ltb_ge in Ed. lia.
      * apply bool_decide_eq_false in Ed. contradiction.
    + destruct Hw as [x Hx]. discriminate.
  - intros script. apply WriteLoop_exit_closed, Hok.
Qed.

Lemma WriteLoop_errors_witness :
  session_ok session2 /\
  wl_dropped (WriteLoop picky_pack 0 drop_then_write session2) = [Some pong] /\
  wl_written (WriteLoop picky_pack 0 drop_then_write session2) = [Data ping] /\
  wl_status (WriteLoop picky_pack 0 drop_then_write session2) = Returned /\
  is_closed_session (wl_session (WriteLoop picky_pack 0 drop_then_write session2)) /\
  wl_status (WriteLoop picky_pack 0 write_fails session2) = Returned /\
  wl_written (WriteLoop picky_pack 0 write_fails session2) = [] /\
  Chan.buf (respQueue (wl_session (WriteLoop picky_pack 0 write_fails session2)))
  = [Some ping].
Proof.
  assert (Hok : session_ok session2) by (unfold session_ok; simpl; auto 10).
  split; [exact Hok|].
  destruct (WriteLoop_errors picky_pack 0
              (mkWriteStep [EnvSendResp (Some pong); EnvSendResp (Some ping)] None None)
              [mkWriteStep [] None None; mkWriteStep [EnvClose] None None]
              session2 (Some pong) (Chan.mk [Some ping] 2 [] 0 false) Hok eq_refl)
    as (Hdrop & _ & Hret).
  destruct (WriteLoop_errors picky_pack 0
              (mkWriteStep [EnvSendResp (Some ping); EnvSendResp (Some ping)] None
                 (Some "broken pipe"))
              [mkWriteStep [] None None]
              session2 (Some ping) (Chan.mk [Some ping] 2 [] 0 false) Hok eq_refl)
    as (_ & Hstop & _).
  destruct (Hstop (Data ping) eq_refl (or_intror (ex_intro _ "broken pipe" eq_refl)))
    as (s' & effs & HC & HW & Hcl & Hbuf).
  fold write_fails in HW.
  unfold drop_then_write.
  rewrite (Hdrop "cannot pack" eq_refl).
  split; [reflexivity|]. split; [reflexivity|]. split; [reflexivity|].
  split; [unfold is_closed_session; simpl; auto|].
  rewrite HW. simpl.
  split; [reflexivity|]. split; [reflexivity|]. exact Hbuf.
Defined.

(** ** The dispatch loop *)

Lemma SendResp_ok (s s' : Session) (e : EntryPtr) (err : option string) :
  session_ok s -> SendResp s e = Done (err, s') -> session_ok s'.
Proof.
  intros Hok. unfold SendResp, safelyPushRespQueue, obind.
  destruct (Chan.send e (respQueue s)) as [q| |] eqn:E; try discriminate; simpl.
  - intros [= _ <-]. apply send_keeps_flag in E.
    destruct Hok as (Hc & Hq & Hp & Hb & Hs).
    unfold session_ok, set_respQueue; simpl. rewrite E. auto 10.
  - intros [= _ <-]. exact Hok.
Qed.

Lemma SendResp_no_panic (s : Session) (e : EntryPtr) (msg : string) :
  SendResp s e <> Panic msg.
Proof.
  unfold SendResp, safelyPushRespQueue, obind.
  destruct (Chan.send e (respQueue s)); discriminate.
Qed.

Lemma sessions_insert_ok (f : nat -> Session) (sid : nat) (s : Session) :
  (forall k, session_ok (f k)) -> session_ok s ->
  forall k, session_ok (<[sid := s]> f k).
Proof.
  intros Hf Hs k. destruct (decide (sid = k)) as [<-|Hne].
  - rewrite fn_lookup_insert. exact Hs.
  - rewrite fn_lookup_insert_ne by exact Hne. apply Hf.
Qed.

(** [handleRequest] on a context that holds a message does not panic. *)
Lemma handleRequest_safe {W} (r : Router W) (ctx : Context) (w : W) :
  reqMsg ctx <> None -> exists res, handleRequest r ctx w = Done res.
Proof.
  intros H. destruct (reqMsg ctx) as [e|] eqn:E; [|congruence].
  rewrite (handleRequest_unfold r ctx e w E). eauto.
Qed.

(** A spawned goroutine that holds a message runs to its end: it neither
    panics nor touches the router, it keeps the sessions well formed and
    leaves the queue of goroutines as given. *)
Lemma run_task_ok {W} (wd : World W) (reqCtx : Context) (rest : list Context) :
  world_ok wd -> reqMsg reqCtx <> None ->
  exists wd', run_task wd reqCtx rest = Done wd'
    /\ w_router wd' = w_router wd
    /\ w_tasks wd' = rest
    /\ (forall sid, session_ok (w_sessions wd' sid)).
Proof.
  intros (Hb & Hs & Hses & Ht) Hmsg.
  destruct (handleRequest_safe (w_router wd) reqCtx (w_user wd) Hmsg)
    as ([[respEntry err] u] & HH).
  unfold run_task, task_handle, obind. rewrite HH. simpl.
  destruct err as [err|]; simpl.
  { eexists. split; [reflexivity|]. simpl. auto. }
  destruct respEntry as [e|]; simpl.
  2:{ eexists. split; [reflexivity|]. simpl. auto. }
  unfold task_send, obind.
  destruct (SendResp (w_sessions wd (session reqCtx)) (Some e))
    as [[serr s']| |] eqn:ES.
  - apply SendResp_ok in ES; [|apply Hses].
    destruct serr; simpl; eexists; (split; [reflexivity|]); simpl;
      (split; [reflexivity|]); (split; [reflexivity|]);
      apply sessions_insert_ok; assumption.
  - exfalso. eapply SendResp_no_panic, ES.
  - eexists. split; [reflexivity|]. simpl.
    split; [reflexivity|]. split; [reflexivity|].
    apply sessions_insert_ok; [assumption|]. apply (Hses (session reqCtx)).
Qed.

(** A step of another goroutine keeps the world well formed; when it
    panics, [stop] had been called or the pending queue was closed. *)
Lemma denv_step_ok {W} (wd : World W) (a : denv_action) :
  world_ok wd ->
  match denv_step wd a with
  | Done wd' => world_ok wd'
  | Panic _ => router_closed wd
  | Blocked => True
  end.
Proof.
  intros Hok. pose proof Hok as (Hb & Hs & Hses & Ht).
  destruct a as [|reqCtx| |sid|]; simpl.
  - unfold stop, Chan.close, obind.
    destruct (Chan.is_closed (stopped (w_router wd))) eqn:E.
    + left. exact E.
    + unfold world_ok; simpl. auto.
  - destruct (Chan.send reqCtx (reqCtxQueue (w_router wd))) as [q| |] eqn:E.
    + exact Hok.
    + right. unfold Chan.send in E.
      destruct (Chan.is_closed (reqCtxQueue (w_router wd))); [reflexivity|].
      destruct (0 <? _)%nat; [discriminate|].
      destruct (_ <? _)%nat; discriminate.
    + exact Hok.
  - unfold Chan.close, obind.
    destruct (Chan.is_closed (reqCtxQueue (w_router wd))) eqn:E.
    + right. exact E.
    + exact Hok.
  - destruct (Close_total _ (Hses sid)) as (s' & effs & -> & Hok' & _). simpl.
    unfold world_ok; simpl.
    split; [exact Hb|]. split; [exact Hs|]. split; [|exact Ht].
    apply sessions_insert_ok; assumption.
  - destruct (w_tasks wd) as [|reqCtx rest] eqn:Et; [exact Hok|].
    try rewrite Et in Ht. inversion Ht as [|? ? Hmsg Hrest]; subst.
    destruct (run_task_ok wd reqCtx rest Hok Hmsg) as (wd' & -> & Hr & Htk & Hs').
    unfold world_ok. rewrite Hr, Htk. auto.
Qed.

Lemma denv_steps_ok {W} (l : list denv_action) (wd : World W) :
  world_ok wd ->
  world_ok (fst (denv_steps wd l))
  /\ (forall msg, snd (denv_steps wd l) = Some msg ->
        router_closed (fst (denv_steps wd l))).
Proof.
  revert wd. induction l as [|a l IH]; intros wd Hok; simpl.
  - split; [exact Hok|]. intros msg; discriminate.
  - pose proof (denv_step_ok wd a Hok) as Hstep.
    destruct (denv_step wd a) as [wd'|msg|].
    + apply IH, Hstep.
    + simpl. split; [exact Hok|]. intros _ _. exact Hstep.
    + apply IH, Hok.
Qed.

Lemma ready_closed (c : chan unit) :
  Chan.buf c = [] -> Chan.sendq c = [] -> ready c = Chan.is_closed c.
Proof.
  intros Hb Hs. unfold ready, Chan.recv. rewrite Hb, Hs.
  destruct (Chan.is_closed c); reflexivity.
Qed.

Lemma ready_session_closed (s : Session) :
  session_ok s -> ready (closed s) = closeOnce s.
Proof.
  intros (Hc & _ & _ & Hb & Hs). rewrite ready_closed by assumption. exact Hc.
Qed.

Lemma recv_none_closed {A} (c c' : chan A) :
  Chan.recv c = Done (None, c') -> Chan.is_closed c = true.
Proof.
  unfold Chan.recv. destruct (Chan.buf c), (Chan.sendq c); try discriminate.
  destruct (Chan.is_closed c); [reflexivity|discriminate].
Qed.

Lemma recv_no_panic {A} (c : chan A) (msg : string) : Chan.recv c <> Panic msg.
Proof.
  unfold Chan.recv. destruct (Chan.buf c), (Chan.sendq c); try discriminate.
  destruct (Chan.is_closed c); discriminate.
Qed.

(** One iteration: it goes on, spawning only for a context that holds a
    message, or it ends for one of the two reasons; the world stays well
    formed. *)
Lemma consume_iter_ok {W} (pick_stop : bool) (wd : World W) :
  world_ok wd ->
  match consume_iter pick_stop wd with
  | Continue wd' d => world_ok wd' /\ spawn_has_msg d
  | Exit status wd' => world_ok wd' /\ exit_reason status wd'
  end.
Proof.
  intros Hok. pose proof Hok as (Hb & Hs & Hses & Ht).
  unfold consume_iter.
  destruct (ready (stopped (w_router wd)) &&
            (pick_stop || negb (ready (reqCtxQueue (w_router wd))))) eqn:Esel.
  - apply andb_true_iff in Esel. destruct Esel as [Est _].
    rewrite ready_closed in Est by assumption.
    unfold Chan.close.
    destruct (Chan.is_closed (reqCtxQueue (w_router wd))) eqn:Eq; simpl.
    + split; [exact Hok|]. right. exact Eq.
    + split; [exact Hok|]. split; [exact Est|reflexivity].
  - destruct (Chan.recv (reqCtxQueue (w_router wd))) as [[[reqCtx|] q]| |] eqn:Er.
    + destruct (ready (closed (w_sessions wd (session reqCtx)))).
      * split; [exact Hok|exact I].
      * destruct (reqMsg reqCtx) as [e|] eqn:Em.
        -- split.
           ++ unfold world_ok; simpl.
              split; [exact Hb|]. split; [exact Hs|]. split; [exact Hses|].
              apply Forall_app. split; [exact Ht|].
              constructor; [congruence|constructor].
           ++ simpl. congruence.
        -- split; [exact Hok|exact I].
    + apply recv_none_closed in Er. split; [exact Hok|exact Er].
    + exfalso. eapply recv_no_panic, Er.
    + split; [exact Hok|exact I].
Qed.

(** A whole run: the world stays well formed, every goroutine spawned
    holds a message, and the loop ends only after [stop] or on a closed
    pending queue. *)
Lemma consumeRequest_inv {W} (script : list dispatch_step) (wd : World W) :
  world_ok wd ->
  world_ok (dr_world (consumeRequest script wd))
  /\ Forall spawn_has_msg (dr_decisions (consumeRequest script wd))
  /\ exit_reason (dr_status (consumeRequest script wd))
       (dr_world (consumeRequest script wd)).
Proof.
  revert wd. induction script as [|st rest IH]; intros wd Hok; simpl.
  - split; [exact Hok|]. split; [constructor|exact I].
  - destruct (denv_steps_ok (ds_env st) wd Hok) as [Hok1 Hcrash].
    destruct (denv_steps wd (ds_env st)) as [wd1 [msg|]]; simpl in *.
    + split; [exact Hok1|]. split; [constructor|]. apply (Hcrash msg eq_refl).
    + pose proof (consume_iter_ok (ds_pick_stop st) wd1 Hok1) as Hit.
      destruct (consume_iter (ds_pick_stop st) wd1) as [wd2 d|status wd2]; simpl.
      * destruct Hit as [Hok2 Hd].
        destruct (IH wd2 Hok2) as (H1 & H2 & H3).
        split; [exact H1|]. split; [|exact H3].
        constructor; assumption.
      * destruct Hit as [Hok2 Hex].
        split; [exact Hok2|]. split; [constructor|exact Hex].
Qed.

Lemma world0_ok : world_ok world0.
Proof.
  unfold world_ok. simpl. split; [reflexivity|]. split; [reflexivity|].
  split; [|constructor].
  intros [|[|sid]]; unfold session_ok; simpl; auto 10.
Qed.

(** C6. In a well-formed world, when the [select] of the dispatch loop
    takes a request context from the pending queue: the context of a closed
    session is skipped, and so is the context of an open session without a
    message; in both cases nothing is spawned and the world only loses the
    context from the queue; otherwise a goroutine is spawned for it.  A run
    of the loop ends only in three ways: returned on the stop signal, with
    the pending queue closed by the loop; returned on a closed pending
    queue; or the program has panicked, and then [stop] had been called or
    the pending queue closed.  A spawned goroutine whose handler returns an
    error, or whose send fails on a closed session, logs one line and ends:
    it leaves the router as it is. *)
Theorem consumeRequest_dispatch {W} (wd : World W) (Hok : world_ok wd) :
  (forall pick_stop reqCtx q,
      Chan.recv (reqCtxQueue (w_router wd)) = Done (Some reqCtx, q) ->
      ready (stopped (w_router wd)) && pick_stop = false ->
      (closeOnce (w_sessions wd (session reqCtx)) = true ->
       consume_iter pick_stop wd
       = Continue (set_router wd (set_reqCtxQueue (w_router wd) q))
           (SkipClosedSession reqCtx))
      /\ (closeOnce (w_sessions wd (session reqCtx)) = false ->
          reqMsg reqCtx = None ->
          consume_iter pick_stop wd
          = Continue (set_router wd (set_reqCtxQueue (w_router wd) q))
              (SkipNilMsg reqCtx))
      /\ (closeOnce (w_sessions wd (session reqCtx)) = false ->
          reqMsg reqCtx <> None ->
          consume_iter pick_stop wd
          = Continue (mkWorld (set_reqCtxQueue (w_router wd) q) (w_sessions wd)
                        (w_tasks wd ++ [reqCtx]) (w_user wd) (w_log wd))
              (Spawn reqCtx)))
  /\ (forall script,
        (dr_status (consumeRequest script wd) = ReturnedOnStop ->
         Chan.is_closed (stopped (w_router (dr_world (consumeRequest script wd)))) = true
         /\ Chan.is_closed (reqCtxQueue (w_router (dr_world (consumeRequest script wd)))) = true)
        /\ (dr_status (consumeRequest script wd) = ReturnedOnClosedQueue ->
            Chan.is_closed (reqCtxQueue (w_router (dr_world (consumeRequest script wd)))) = true)
        /\ (forall msg, dr_status (consumeRequest script wd) = ProgramCrashed msg ->
            router_closed (dr_world (consumeRequest script wd))))
  /\ (forall reqCtx rest resp err u,
        handleRequest (w_router wd) reqCtx (w_user wd) = Done ((resp, Some err), u) ->
        run_task wd reqCtx rest
        = Done (mkWorld (w_router wd) (w_sessions wd) rest u
                  (w_log wd ++ ["router handle request err: " ++ err]%string)))
  /\ (forall reqCtx rest e u,
        handleRequest (w_router wd) reqCtx (w_user wd) = Done ((Some e, None), u) ->
        closeOnce (w_sessions wd (session reqCtx)) = true ->
        run_task wd reqCtx rest
        = Done (mkWorld (w_router wd)
                  (<[session reqCtx := w_sessions wd (session reqCtx)]> (w_sessions wd))
                  rest u
                  (w_log wd ++ ["router send resp err: session's closed"])))
  /\ (forall reqCtx rest,
        reqMsg reqCtx <> None ->
        exists wd', run_task wd reqCtx rest = Done wd' /\ w_router wd' = w_router wd).
Proof.
  pose proof Hok as (Hb & Hs & Hses & Ht).
  split; [|split; [|split; [|split]]].
  - intros pick_stop reqCtx q Hrecv Hsel.
    assert (Hq : ready (reqCtxQueue (w_router wd)) = true)
      by (unfold ready; rewrite Hrecv; reflexivity).
    unfold consume_iter. rewrite Hq. simpl. rewrite orb_false_r, Hsel, Hrecv.
    rewrite (ready_session_closed _ (Hses (session reqCtx))).
    split; [|split].
    + intros ->. reflexivity.
    + intros -> ->. reflexivity.
    + intros -> Hmsg. destruct (reqMsg reqCtx); [reflexivity|congruence].
  - intros script.
    destruct (consumeRequest_inv script wd Hok) as (_ & _ & Hex).
    split; [|split].
    + intros E. rewrite E in Hex. exact Hex.
    + intros E. rewrite E in Hex. exact Hex.
    + intros msg E. rewrite E in Hex. exact Hex.
  - intros reqCtx rest resp err u HH.
    unfold run_task, task_handle, obind. rewrite HH. reflexivity.
  - intros reqCtx rest e u HH Hcl.
    unfold run_task, task_handle, task_send, obind. rewrite HH. simpl.
    rewrite (SendResp_closed _ (Some e)
               (ok_fired_closed _ (Hses (session reqCtx)) Hcl)).
    simpl. rewrite app_nil_r. reflexivity.
  - intros reqCtx rest Hmsg.
    destruct (run_task_ok wd reqCtx rest Hok Hmsg) as (wd' & H1 & H2 & _).
    eauto.
Qed.

Lemma consumeRequest_dispatch_witness :
  world_ok world0 /\
  dr_status (consumeRequest busy_script world0) = ReturnedOnStop /\
  dr_decisions (consumeRequest busy_script world0)
  = [SkipClosedSession (mkContext 1 (Some ping));
     SkipNilMsg (mkContext 0 None);
     Spawn (mkContext 0 (Some (mkEntry (IntID 3) [])));
     Spawn ctx_ping] /\
  w_log (dr_world (consumeRequest busy_script world0))
  = ["router handle request err: boom"] /\
  Chan.buf (respQueue (w_sessions (dr_world (consumeRequest busy_script world0)) 0))
  = [Some pong] /\
  Chan.is_closed (stopped (w_router (dr_world (consumeRequest busy_script world0)))) = true /\
  Chan.is_closed (reqCtxQueue (w_router (dr_world (consumeRequest busy_script world0)))) = true.
Proof.
  split; [exact world0_ok|].
  split; [reflexivity|]. split; [reflexivity|]. split; [reflexivity|].
  split; [reflexivity|].
  destruct (consumeRequest_dispatch world0 world0_ok) as (_ & Hend & _).
  destruct (Hend busy_script) as (Hstop & _).
  apply Hstop. reflexivity.
Defined.

(** Without the guard of the dispatch loop the read of [ctx.reqMsg.ID]
    would fault. *)
Lemma handleRequest_nil_msg {W} (r : Router W) (ctx : Context) (w : W) :
  reqMsg ctx = None ->
  handleRequest r ctx w = Panic "invalid memory address or nil pointer dereference".
Proof. intros H. unfold handleRequest. rewrite H. reflexivity. Qed.

(** C9. On a context that holds a message, [handleRequest] does not
    dereference a nil message: it returns the result of the wrapped
    handler, and the goroutine run for the context ends without a panic.
    The dispatch loop establishes the precondition: every context it
    spawns a goroutine for, and every goroutine still waiting to run,
    holds a message. *)
Theorem handleRequest_no_nil_deref {W} (r : Router W) (ctx : Context) (w : W)
  (Hmsg : reqMsg ctx <> None) :
  (exists e, reqMsg ctx = Some e /\
     handleRequest r ctx w
     = Done (wrapHandlers r (handlerMapper r !! ID e) (middlewares_for r (ID e)) ctx w))
  /\ (forall (wd : World W) rest, world_ok wd ->
        exists wd', run_task wd ctx rest = Done wd')
  /\ (forall (wd : World W) script, world_ok wd ->
        Forall spawn_has_msg (dr_decisions (consumeRequest script wd))
        /\ Forall (fun c => reqMsg c <> None)
             (w_tasks (dr_world (consumeRequest script wd)))).
Proof.
  split; [|split].
  - destruct (reqMsg ctx) as [e|] eqn:E; [|congruence].
    exists e. split; [reflexivity|]. unfold handleRequest. rewrite E. reflexivity.
  - intros wd rest Hok.
    destruct (run_task_ok wd ctx rest Hok Hmsg) as (wd' & H & _). eauto.
  - intros wd script Hok.
    destruct (consumeRequest_inv script wd Hok) as (Hw & Hd & _).
    split; [exact Hd|]. apply Hw.
Qed.

Lemma handleRequest_no_nil_deref_witness :
  reqMsg ctx_ping <> None /\
  (exists e, reqMsg ctx_ping = Some e /\
     handleRequest router_abcd ctx_ping []
     = Done (wrapHandlers router_abcd (handlerMapper router_abcd !! ID e)
               (middlewares_for router_abcd (ID e)) ctx_ping [])) /\
  w_tasks (dr_world (consumeRequest busy_script world0)) = [].
Proof.
  assert (H : reqMsg ctx_ping <> None) by discriminate.
  split; [exact H|].
  split; [|reflexivity].
  apply (handleRequest_no_nil_deref router_abcd ctx_ping [] H).
Defined.

(** * Further properties of the session *)



(** X2. On an open session on which no receiver is parked, [SendResp] puts the
    entry at the tail of the outbound queue and returns nil while the
    queue has room, and blocks when it is full: it neither fails nor drops
    the entry. *)
Theorem SendResp_open (s : Session) (respMsg : EntryPtr)
  (Hopen : Chan.is_closed (respQueue s) = false)
  (Hrecv : Chan.recvq (respQueue s) = 0%nat) :
  ((length (Chan.buf (respQueue s)) < Chan.cap (respQueue s))%nat ->
   SendResp s respMsg
   = Done (None,
           set_respQueue s
             (Chan.mk (Chan.buf (respQueue s) ++ [respMsg]) (Chan.cap (respQueue s))
                (Chan.sendq (respQueue s)) 0 false)))
  /\ ((Chan.cap (respQueue s) <= length (Chan.buf (respQueue s)))%nat ->
      SendResp s respMsg = Blocked).
Proof.
  unfold SendResp, safelyPushRespQueue, Chan.send, obind.
  rewrite Hopen, Hrecv. simpl. split; intros H.
  - destruct (Nat.ltb_spec (length (Chan.buf (respQueue s))) (Chan.cap (respQueue s)));
      [reflexivity|lia].
  - destruct (Nat.ltb_spec (length (Chan.buf (respQueue s))) (Chan.cap (respQueue s)));
      [lia|reflexivity].
Qed.

Lemma SendResp_open_witness :
  SendResp session0 (Some pong)
  = Done (None, set_respQueue session0 (Chan.mk [Some pong] 1 [] 0 false))
  /\ SendResp (set_respQueue session0 (Chan.mk [Some pong] 1 [] 0 false)) (Some ping)
     = Blocked.
Proof.
  destruct (SendResp_open session0 (Some pong) eq_refl eq_refl) as [H _].
  destruct (SendResp_open (set_respQueue session0 (Chan.mk [Some pong] 1 [] 0 false))
              (Some ping) eq_refl eq_refl) as [_ H'].
  split.
  - apply H. simpl. lia.
  - apply H'. simpl. lia.
Defined.

(** X3. [Close] keeps the identifier and the entries buffered in both queues:
    what was queued before the close can still be received. *)
Theorem Close_keeps_queued (s : Session) (Hok : session_ok s) :
  exists s' effs,
    Close s = Done (s', effs)
    /\ id s' = id s
    /\ Chan.buf (reqQueue s') = Chan.buf (reqQueue s)
    /\ Chan.buf (respQueue s') = Chan.buf (respQueue s)
    /\ Chan.cap (reqQueue s') = Chan.cap (reqQueue s)
    /\ Chan.cap (respQueue s') = Chan.cap (respQueue s).
Proof.
  destruct Hok as (Hc & Hq & Hp & _).
  unfold Close, Close_func, Chan.close, obind.
  destruct (closeOnce s) eqn:E.
  - exists s, []. auto 10.
  - rewrite Hc, Hq, Hp. simpl. eexists _, _. split; [reflexivity|]. simpl. auto 10.
Qed.

Lemma Close_keeps_queued_witness :
  exists s' effs,
    Close (set_respQueue session0 (Chan.mk [Some pong] 1 [] 0 false)) = Done (s', effs)
    /\ id s' = "s0"
    /\ Chan.buf (reqQueue s') = []
    /\ Chan.buf (respQueue s') = [Some pong]
    /\ Chan.cap (reqQueue s') = 1%nat
    /\ Chan.cap (respQueue s') = 1%nat.
Proof.
  apply (Close_keeps_queued (set_respQueue session0 (Chan.mk [Some pong] 1 [] 0 false))).
  unfold session_ok; simpl; auto 10.
Defined.







(** * Further properties of the read loop *)

Lemma safelyPushReqQueue_closed (s : Session) (e : EntryPtr) :
  is_closed_session s -> safelyPushReqQueue s e = Done (false, s).
Proof.
  intros (_ & _ & Hq & _). unfold safelyPushReqQueue, Chan.send.
  rewrite Hq. reflexivity.
Qed.

Lemma ReadLoop_no_deadline (readTimeout : Z) (script : list read_step) (s : Session) :
  readTimeout <= 0 ->
  ReadLoop readTimeout script s = ReadLoop readTimeout (map clear_deadline script) s.
Proof.
  intros Hrt. revert s. induction script as [|st rest IH]; intros s; simpl.
  - reflexivity.
  - destruct (Z.ltb_spec 0 readTimeout) as [?|_]; [lia|]. simpl.
    destruct (rs_unpack st) as [entry|err]; [|reflexivity].
    destruct (safelyPushReqQueue (env_steps s (rs_env st)) entry)
      as [[[|] s2]| |]; try reflexivity.
    rewrite IH. reflexivity.
Qed.

(** X6. With a positive read timeout, a failure of [SetReadDeadline] ends the
    loop before anything is read: nothing is pushed and the session is
    closed.  With a timeout that is zero or negative no deadline is armed:
    the run does not depend on what [SetReadDeadline] would return. *)
Theorem ReadLoop_deadline (readTimeout : Z) (script : list read_step) (s : Session)
  (Hok : session_ok s) :
  (0 < readTimeout ->
   forall st rest err, rs_deadline st = Some err ->
     rl_status (ReadLoop readTimeout (st :: rest) s) = Returned
     /\ rl_reads (ReadLoop readTimeout (st :: rest) s) = []
     /\ rl_pushed (ReadLoop readTimeout (st :: rest) s) = []
     /\ is_closed_session (rl_session (ReadLoop readTimeout (st :: rest) s)))
  /\ (readTimeout <= 0 ->
      ReadLoop readTimeout script s
      = ReadLoop readTimeout (map clear_deadline script) s).
Proof.
  split.
  - intros Hrt st rest err Hdl. simpl.
    destruct (Z.ltb_spec 0 readTimeout) as [_|?]; [|lia].
    rewrite Hdl. simpl.
    destruct (read_exit_ok s [] Hok) as (s' & -> & Hcl). simpl. auto.
  - apply ReadLoop_no_deadline.
Qed.

Lemma ReadLoop_deadline_witness :
  rl_reads (ReadLoop 5 (mkReadStep (Some "timeout") (inl (Some ping)) [] :: bad_third_frame)
              session2) = []
  /\ rl_pushed (ReadLoop 0
                  [mkReadStep (Some "timeout") (inl (Some ping)) [];
                   mkReadStep None (inr "bad frame") []] session2)
     = [Some ping].
Proof.
  assert (Hok : session_ok session2) by (unfold session_ok; simpl; auto 10).
  destruct (ReadLoop_deadline 5 [] session2 Hok) as [H _].
  destruct (ReadLoop_deadline 0
              [mkReadStep (Some "timeout") (inl (Some ping)) [];
               mkReadStep None (inr "bad frame") []] session2 Hok) as [_ H'].
  split.
  - apply (H ltac:(lia) (mkReadStep (Some "timeout") (inl (Some ping)) [])
             bad_third_frame "timeout" eq_refl).
  - rewrite (H' ltac:(lia)). reflexivity.
Defined.

(** X7. On a session that is already closed the read loop pushes nothing: it
    reads at most one frame, finds the queue closed and returns. *)
Theorem ReadLoop_closed_session (readTimeout : Z) (script : list read_step)
  (s : Session)
  (Hok : session_ok s)
  (Hon : closeOnce s = true) :
  rl_status (ReadLoop readTimeout script s) = Returned
  /\ rl_pushed (ReadLoop readTimeout script s) = []
  /\ (length (rl_reads (ReadLoop readTimeout script s)) <= 1)%nat
  /\ is_closed_session (rl_session (ReadLoop readTimeout script s)).
Proof.
  destruct script as [|st rest]; simpl.
  - destruct (read_exit_ok s [inr "EOF"] Hok) as (s' & -> & Hcl). simpl. auto.
  - destruct ((0 <? readTimeout) && bool_decide (is_Some (rs_deadline st))).
    { destruct (read_exit_ok s [] Hok) as (s' & -> & Hcl). simpl. auto. }
    destruct (rs_unpack st) as [entry|err].
    2:{ destruct (read_exit_ok s [inr err] Hok) as (s' & -> & Hcl). simpl. auto. }
    pose proof (env_steps_ok (rs_env st) s Hok) as Hok1.
    pose proof (env_steps_closed (rs_env st) s Hok (ok_fired_closed s Hok Hon)) as Hcl1.
    rewrite (safelyPushReqQueue_closed _ entry Hcl1).
    destruct (read_exit_ok _ [inl entry] Hok1) as (s' & -> & Hcl). simpl. auto.
Qed.

Lemma ReadLoop_closed_session_witness :
  rl_status (ReadLoop 0 bad_third_frame closed_session) = Returned
  /\ rl_pushed (ReadLoop 0 bad_third_frame closed_session) = []
  /\ (length (rl_reads (ReadLoop 0 bad_third_frame closed_session)) <= 1)%nat
  /\ is_closed_session (rl_session (ReadLoop 0 bad_third_frame closed_session)).
Proof.
  apply (ReadLoop_closed_session 0 bad_third_frame closed_session);
    [unfold session_ok; simpl; auto 10 | reflexivity].
Defined.




(** * Further properties of the router *)

Lemma non_nil_app {A} (m1 m2 : list (option A)) :
  non_nil (m1 ++ m2) = non_nil m1 ++ non_nil m2.
Proof.
  induction m1 as [|[x|] m1 IH]; simpl; [reflexivity| |exact IH].
  rewrite IH. reflexivity.
Qed.

(** X10. [registerMiddleware] appends the non-nil middlewares given to the
    global ones, in the order given, and touches nothing else; two calls
    amount to one call with the two argument lists joined. *)
Theorem registerMiddleware_compose {W} (r : Router W)
  (m1 m2 : list (option (MiddlewareFunc W))) :
  registerMiddleware r m1
  = mkRouter (handlerMapper r) (middlewaresMapper r)
      (globalMiddlewares r ++ non_nil m1) (notFoundHandler r)
      (reqCtxQueue r) (stopped r)
  /\ registerMiddleware (registerMiddleware r m1) m2 = registerMiddleware r (m1 ++ m2).
Proof.
  unfold registerMiddleware. simpl.
  rewrite !append_non_nil_spec, non_nil_app, app_assoc. auto.
Qed.





(** X13. The last [setNotFoundHandler] wins, and the not-found handler plays no
    part in a request whose id has a handler. *)
Theorem setNotFoundHandler_scope {W} (r : Router W) (nf1 nf2 : option (HandlerFunc W))
  (ctx : Context) (e : Entry) (h : HandlerFunc W) (w : W)
  (Hmsg : reqMsg ctx = Some e)
  (Hh : handlerMapper r !! ID e = Some h) :
  setNotFoundHandler (setNotFoundHandler r nf1) nf2 = setNotFoundHandler r nf2
  /\ handleRequest (setNotFoundHandler r nf1) ctx w = handleRequest r ctx w.
Proof.
  split; [reflexivity|].
  rewrite !(handleRequest_unfold _ ctx e w Hmsg).
  unfold middlewares_for, resolve_handler. simpl. rewrite Hh. reflexivity.
Qed.

Lemma setNotFoundHandler_scope_witness :
  handleRequest
    (setNotFoundHandler router_abcd (Some (marking_handler "nf" (None, None))))
    ctx_ping []
  = handleRequest router_abcd ctx_ping [].
Proof.
  apply (setNotFoundHandler_scope router_abcd
           (Some (marking_handler "nf" (None, None))) None ctx_ping ping
           (marking_handler "h" (Some pong, None)) [] eq_refl eq_refl).
Defined.



(** X15. A router fresh from [newRouter] answers every request that holds a
    message with no entry and no error, and leaves the user world alone. *)
Theorem fresh_router_silent {W} (queueSize : list Z) (r : Router W)
  (ctx : Context) (w : W)
  (Hnew : newRouter queueSize = Done r)
  (Hmsg : reqMsg ctx <> None) :
  handleRequest r ctx w = Done ((None, None), w).
Proof.
  destruct (reqMsg ctx) as [e|] eqn:E; [|congruence].
  rewrite (handleRequest_unfold r ctx e w E).
  revert Hnew. unfold newRouter, Chan.make, obind.
  destruct (_ <? 0); [discriminate|]. simpl.
  intros [= <-]. reflexivity.
Qed.

Lemma fresh_router_silent_witness :
  exists r : Router (list mark),
    newRouter [4] = Done r
    /\ handleRequest r ctx_ping [] = Done ((None, None), []).
Proof.
  eexists. split; [reflexivity|].
  apply (fresh_router_silent [4] _ ctx_ping []); [reflexivity|discriminate].
Defined.

(** X16. A middleware that answers without calling the next handler cuts the
    chain: the middlewares after it and the handler do not run, the ones
    before it still wrap its answer. *)
Theorem middleware_short_circuit {W} (r : Router W) (h : option (HandlerFunc W))
  (pre post : list (MiddlewareFunc W)) (m : MiddlewareFunc W) (g : HandlerFunc W)
  (Hm : forall next, m next = g) :
  wrapHandlers r h (pre ++ m :: post) = onion pre g.
Proof.
  rewrite wrapHandlers_onion. unfold onion.
  rewrite fold_right_app. simpl. rewrite Hm. reflexivity.
Qed.

Lemma middleware_short_circuit_witness :
  wrapHandlers router_abcd (Some (marking_handler "h" (Some pong, None)))
    ([bracket "A"] ++ deny :: [bracket "B"]) ctx_ping []
  = ((None, Some "denied"), [Before "A"; Handled "denied"; After "A"]).
Proof.
  rewrite (middleware_short_circuit router_abcd _ [bracket "A"] [bracket "B"] deny
             (marking_handler "denied" (None, Some "denied")) (fun _ => eq_refl)).
  reflexivity.
Defined.


(** * Further properties of the dispatch loop *)

(** X18. Once [stop] has been called, the iteration in which [select] takes the
    stop signal (it must when the pending queue has nothing to offer)
    closes the pending queue and returns; the request contexts still queued
    are not dispatched. *)
Theorem consume_iter_on_stop {W} (wd : World W) (pick_stop : bool)
  (Hok : world_ok wd)
  (Hstop : Chan.is_closed (stopped (w_router wd)) = true)
  (Hopen : Chan.is_closed (reqCtxQueue (w_router wd)) = false)
  (Hsel : pick_stop = true \/ ready (reqCtxQueue (w_router wd)) = false) :
  consume_iter pick_stop wd
  = Exit ReturnedOnStop
      (set_router wd
         (set_reqCtxQueue (w_router wd)
            (Chan.mk (Chan.buf (reqCtxQueue (w_router wd)))
               (Chan.cap (reqCtxQueue (w_router wd))) [] 0 true))).
Proof.
  destruct Hok as (Hb & Hs & _).
  unfold consume_iter. rewrite (ready_closed _ Hb Hs), Hstop. simpl.
  assert (Hc : pick_stop || negb (ready (reqCtxQueue (w_router wd))) = true).
  { destruct Hsel as [-> | ->]; [reflexivity|apply orb_true_r]. }
  rewrite Hc. unfold Chan.close. rewrite Hopen. reflexivity.
Qed.

Lemma consume_iter_on_stop_witness :
  consume_iter true world_stopped
  = Exit ReturnedOnStop
      (set_router world_stopped
         (set_reqCtxQueue (w_router world_stopped)
            (Chan.mk [ctx_ping; ctx_ping] 4 [] 0 true))).
Proof.
  apply (consume_iter_on_stop world_stopped true); try reflexivity.
  - unfold world_ok. simpl. split; [reflexivity|]. split; [reflexivity|].
    split; [|constructor].
    intros [|[|sid]]; unfold session_ok; simpl; auto 10.
  - left. reflexivity.
Defined.






(** An iteration that takes the head of the pending queue while no stop is
    signalled. *)
Lemma consume_iter_take {W} (pick_stop : bool) (wd : World W) (c : Context)
  (cs : list Context) :
  world_ok wd ->
  Chan.is_closed (stopped (w_router wd)) = false ->
  Chan.buf (reqCtxQueue (w_router wd)) = c :: cs ->
  Chan.sendq (reqCtxQueue (w_router wd)) = [] ->
  exists wd',
    consume_iter pick_stop wd = Continue wd' (classify (w_sessions wd) c)
    /\ world_ok wd'
    /\ w_sessions wd' = w_sessions wd
    /\ w_tasks wd' = w_tasks wd ++ spawned (w_sessions wd) [c]
    /\ Chan.is_closed (stopped (w_router wd')) = false
    /\ Chan.buf (reqCtxQueue (w_router wd')) = cs
    /\ Chan.sendq (reqCtxQueue (w_router wd')) = [].
Proof.
  intros Hok Hst Hbuf Hsq. pose proof Hok as (Hb & Hs & Hses & Ht).
  unfold consume_iter. rewrite (ready_closed _ Hb Hs), Hst. simpl.
  unfold Chan.recv. rewrite Hbuf, Hsq.
  rewrite (ready_session_closed _ (Hses (session c))).
  unfold classify, spawned, classify.
  destruct (closeOnce (w_sessions wd (session c))).
  - eexists. split; [reflexivity|]. simpl. rewrite app_nil_r.
    split; [exact Hok|]. auto 10.
  - destruct (reqMsg c) as [e|] eqn:Em.
    + eexists. split; [reflexivity|]. simpl.
      split; [|auto 10].
      unfold world_ok; simpl.
      split; [exact Hb|]. split; [exact Hs|]. split; [exact Hses|].
      apply Forall_app. split; [exact Ht|].
      constructor; [congruence|constructor].
    + eexists. split; [reflexivity|]. simpl. rewrite app_nil_r.
      split; [exact Hok|]. auto 10.
Qed.

Lemma spawned_app (sessions : nat -> Session) (l1 l2 : list Context) :
  spawned sessions (l1 ++ l2) = spawned sessions l1 ++ spawned sessions l2.
Proof.
  induction l1 as [|c l1 IH]; simpl; [reflexivity|].
  destruct (classify sessions c); simpl; rewrite IH; reflexivity.
Qed.

(** X21. While no stop is signalled and the other goroutines stand still, the
    dispatch loop takes the pending request contexts in queue order, one
    per iteration: its decisions are the classification of the contexts
    taken, the goroutines spawned are queued in the same order, and the
    contexts not yet taken stay in the queue. *)
Theorem consumeRequest_fifo {W} (script : list dispatch_step) (wd : World W)
  (Hok : world_ok wd)
  (Hst : Chan.is_closed (stopped (w_router wd)) = false)
  (Hsq : Chan.sendq (reqCtxQueue (w_router wd)) = [])
  (Hquiet : Forall (fun st => ds_env st = []) script)
  (Hlen : (length script <= length (Chan.buf (reqCtxQueue (w_router wd))))%nat) :
  dr_status (consumeRequest script wd) = Dispatching
  /\ dr_decisions (consumeRequest script wd)
     = map (classify (w_sessions wd))
         (firstn (length script) (Chan.buf (reqCtxQueue (w_router wd))))
  /\ w_tasks (dr_world (consumeRequest script wd))
     = w_tasks wd
       ++ spawned (w_sessions wd)
            (firstn (length script) (Chan.buf (reqCtxQueue (w_router wd))))
  /\ Chan.buf (reqCtxQueue (w_router (dr_world (consumeRequest script wd))))
     = skipn (length script) (Chan.buf (reqCtxQueue (w_router wd))).
Proof.
  revert wd Hok Hst Hsq Hlen.
  induction Hquiet as [|st rest Henv Hrest IH]; intros wd Hok Hst Hsq Hlen.
  - simpl. rewrite app_nil_r. auto.
  - destruct (Chan.buf (reqCtxQueue (w_router wd))) as [|c cs] eqn:Hbuf;
      [simpl in Hlen; lia|].
    destruct (consume_iter_take (ds_pick_stop st) wd c cs Hok Hst Hbuf Hsq)
      as (wd' & Hit & Hok' & Hses & Htk & Hst' & Hbuf' & Hsq').
    cbn [consumeRequest]. rewrite Henv. cbn [denv_steps]. rewrite Hit.
    cbn [dr_status dr_world dr_decisions length firstn skipn map].
    simpl in Hlen.
    destruct (IH wd' Hok' Hst' Hsq' ltac:(rewrite Hbuf'; lia))
      as (H1 & H2 & H3 & H4).
    rewrite Hbuf', Hses in *.
    split; [exact H1|]. split; [rewrite H2; reflexivity|].
    split; [|exact H4].
    rewrite H3, Htk, <- app_assoc. f_equal.
    change (c :: firstn (length rest) cs) with ([c] ++ firstn (length rest) cs).
    rewrite spawned_app. reflexivity.
Qed.

Lemma consumeRequest_fifo_witness :
  dr_decisions
    (consumeRequest (repeat (mkDispatchStep [] false) 4) world_queued)
  = [SkipClosedSession (mkContext 1 (Some ping));
     SkipNilMsg (mkContext 0 None);
     Spawn (mkContext 0 (Some (mkEntry (IntID 3) [])));
     Spawn ctx_ping]
  /\ w_tasks (dr_world
                (consumeRequest (repeat (mkDispatchStep [] false) 4) world_queued))
     = [mkContext 0 (Some (mkEntry (IntID 3) [])); ctx_ping].
Proof.
  assert (Hok : world_ok world_queued).
  { unfold world_ok. simpl. split; [reflexivity|]. split; [reflexivity|].
    split; [|constructor].
    intros [|[|sid]]; unfold session_ok; simpl; auto 10. }
  destruct (consumeRequest_fifo (repeat (mkDispatchStep [] false) 4) world_queued
              Hok eq_refl eq_refl
              ltac:(repeat constructor) ltac:(simpl; lia))
    as (_ & H2 & H3 & _).
  split; [exact H2|exact H3].
Defined.

(** X22. [WaitUntilClosed] returns exactly when the session has been closed: it
    returns at once on a closed session and blocks on an open one. *)
Theorem WaitUntilClosed_iff (s : Session) (Hok : session_ok s) :
  (closeOnce s = true -> WaitUntilClosed s = Done tt)
  /\ (closeOnce s = false -> WaitUntilClosed s = Blocked).
Proof.
  destruct Hok as (Hc & _ & _ & Hb & Hs).
  unfold WaitUntilClosed, Chan.recv, obind. rewrite Hb, Hs, Hc.
  split; intros ->; reflexivity.
Qed.

Lemma WaitUntilClosed_iff_witness :
  WaitUntilClosed session0 = Blocked /\ WaitUntilClosed closed_session = Done tt.
Proof.
  destruct (WaitUntilClosed_iff session0 ltac:(unfold session_ok; simpl; auto 10))
    as [_ H].
  destruct (WaitUntilClosed_iff closed_session ltac:(unfold session_ok; simpl; auto 10))
    as [H' _].
  split; [apply H|apply H']; reflexivity.
Defined.

(** X23. When the pending queue has been closed and is drained, and no stop is
    signalled, the dispatch loop returns and leaves the world as it is. *)
Theorem consume_iter_closed_queue {W} (wd : World W) (pick_stop : bool)
  (Hok : world_ok wd)
  (Hst : Chan.is_closed (stopped (w_router wd)) = false)
  (Hcl : Chan.is_closed (reqCtxQueue (w_router wd)) = true)
  (Hbuf : Chan.buf (reqCtxQueue (w_router wd)) = [])
  (Hsq : Chan.sendq (reqCtxQueue (w_router wd)) = []) :
  consume_iter pick_stop wd = Exit ReturnedOnClosedQueue wd.
Proof.
  destruct Hok as (Hb & Hs & _).
  unfold consume_iter. rewrite (ready_closed _ Hb Hs), Hst. simpl.
  unfold Chan.recv. rewrite Hbuf, Hsq, Hcl. reflexivity.
Qed.

Lemma consume_iter_closed_queue_witness :
  consume_iter true
    (set_router world0
       (set_reqCtxQueue (w_router world0) (Chan.mk [] 4 [] 0 true)))
  = Exit ReturnedOnClosedQueue
      (set_router world0
         (set_reqCtxQueue (w_router world0) (Chan.mk [] 4 [] 0 true))).
Proof.
  apply (consume_iter_closed_queue
           (set_router world0
              (set_reqCtxQueue (w_router world0) (Chan.mk [] 4 [] 0 true))) true);
    try reflexivity.
  unfold world_ok. simpl. split; [reflexivity|]. split; [reflexivity|].
  split; [|constructor].
  intros [|[|sid]]; unfold session_ok; simpl; auto 10.
Defined.


